(** * Profitability analysis of Orca whirlpool positions

    A shallow embedding of the instruction decoder
    ([decode-transaction.ts]) and of the position ledger and summary
    builder ([analyze-position.ts]), together with the statements the
    specification makes about them. *)

From Stdlib Require Import ZArith QArith Qcanon Qround Qpower Lia Lqa Ascii String.
From stdpp Require Import base option list strings gmap pretty sorting.

Local Open Scope Z_scope.

(** ** decimal.js

    The ledger computes with [Decimal] values of decimal.js under the
    library's default configuration, which the repository never changes:
    20 significant digits, rounding mode ROUND_HALF_UP.  [plus], [minus],
    [times] and [div] return the exact result rounded to that precision;
    constructing a [Decimal] from a digit string, [neg] and [max] do not
    round.  Finite values are kept as canonical rationals, so that two
    decimals are equal exactly when [Decimal.eq] says so; the sign of zero
    is not tracked and the exponent range (9e15) is taken as unbounded. *)
Module Dec.

Inductive Decimal :=
| NaN
| Inf (negative : bool)
| Fin (q : Qc).

Definition precision : Z := 20.

(** [exp_up fuel q], for [1 <= q], counts how often [q] can be divided by
    ten and stay at or above one. *)
Fixpoint exp_up (fuel : nat) (q : Q) : Z :=
  match fuel with
  | O => 0
  | S f => if Qle_bool 10 q then 1 + exp_up f (q / 10) else 0
  end.

(** [exp_down fuel q], for [0 < q < 1], is minus the number of times [q]
    has to be multiplied by ten to reach one. *)
Fixpoint exp_down (fuel : nat) (q : Q) : Z :=
  match fuel with
  | O => 0
  | S f => if Qle_bool 1 q then 0 else exp_down f (q * 10) - 1
  end.

(** The decimal exponent of a positive rational: the [e] with
    [10^e <= q < 10^(e+1)]. *)
Definition sci_exp (q : Q) : Z :=
  if Qle_bool 1 q
  then exp_up (S (Z.to_nat (Z.log2 (Qnum q)))) q
  else exp_down (S (Z.to_nat (Z.log2 (Zpos (Qden q))))) q.

(** Rounding of a positive rational to [precision] significant digits,
    ties away from zero. *)
Definition round_pos (q : Q) : Q :=
  let s := precision - 1 - sci_exp q in
  inject_Z (Qfloor (q * 10 ^ s + (1 # 2))) * 10 ^ (- s).

Definition finalise (q : Qc) : Qc :=
  match (q ?= 0)%Qc with
  | Eq => 0%Qc
  | Gt => Q2Qc (round_pos q)
  | Lt => (- Q2Qc (round_pos (- q)))%Qc
  end.

Definition zero : Decimal := Fin 0%Qc.
Definition one : Decimal := Fin 1%Qc.

(** [new Decimal(bn.toString())] *)
Definition of_Z (z : Z) : Decimal := Fin (Q2Qc (inject_Z z)).

Definition is_zero (q : Qc) : bool := bool_decide (q = 0%Qc).

Definition neg (x : Decimal) : Decimal :=
  match x with
  | NaN => NaN
  | Inf s => Inf (negb s)
  | Fin q => Fin (- q)%Qc
  end.

Definition plus (x y : Decimal) : Decimal :=
  match x, y with
  | NaN, _ | _, NaN => NaN
  | Inf s, Inf t => if Bool.eqb s t then Inf s else NaN
  | Inf s, Fin _ => Inf s
  | Fin _, Inf t => Inf t
  | Fin p, Fin q => Fin (finalise (p + q)%Qc)
  end.

Definition minus (x y : Decimal) : Decimal :=
  match x, y with
  | NaN, _ | _, NaN => NaN
  | Inf s, Inf t => if Bool.eqb s t then NaN else Inf s
  | Inf s, Fin _ => Inf s
  | Fin _, Inf t => Inf (negb t)
  | Fin p, Fin q => Fin (finalise (p - q)%Qc)
  end.

Definition negative (q : Qc) : bool := bool_decide (q < 0)%Qc.

Definition times (x y : Decimal) : Decimal :=
  match x, y with
  | NaN, _ | _, NaN => NaN
  | Inf s, Inf t => Inf (xorb s t)
  | Inf s, Fin q => if is_zero q then NaN else Inf (xorb s (negative q))
  | Fin p, Inf t => if is_zero p then NaN else Inf (xorb (negative p) t)
  | Fin p, Fin q => Fin (finalise (p * q)%Qc)
  end.

Definition div (x y : Decimal) : Decimal :=
  match x, y with
  | NaN, _ | _, NaN => NaN
  | Inf _, Inf _ => NaN
  | Inf s, Fin q => Inf (xorb s (negative q))
  | Fin _, Inf _ => zero
  | Fin p, Fin q =>
      if is_zero q
      then (if is_zero p then NaN else Inf (negative p))
      else Fin (finalise (p / q)%Qc)
  end.

(** [x.cmp(y)]; [None] stands for the NaN that decimal.js returns when an
    operand is NaN. *)
Definition cmp (x y : Decimal) : option comparison :=
  match x, y with
  | NaN, _ | _, NaN => None
  | Inf s, Inf t =>
      Some (if Bool.eqb s t then Eq else if s then Lt else Gt)
  | Inf s, Fin _ => Some (if s then Lt else Gt)
  | Fin _, Inf t => Some (if t then Gt else Lt)
  | Fin p, Fin q => Some (p ?= q)%Qc
  end.

Definition gte (x y : Decimal) : bool :=
  match cmp x y with
  | Some Lt | None => false
  | Some _ => true
  end.

Definition lt (x y : Decimal) : bool :=
  match cmp x y with
  | Some Lt => true
  | _ => false
  end.

Definition gt (x y : Decimal) : bool :=
  match cmp x y with
  | Some Gt => true
  | _ => false
  end.


(** [Decimal.max(x, y)] *)
Definition max (x y : Decimal) : Decimal :=
  match y with
  | NaN => NaN
  | _ => if lt x y then y else x
  end.

Definition is_finite (x : Decimal) : bool :=
  match x with
  | Fin _ => true
  | _ => false
  end.

(** [10 ** d] turned into a [Decimal]: the power is exact for the
    decimals a mint can have (a byte on chain). *)
Definition pow10 (d : nat) : Decimal := of_Z (10 ^ Z.of_nat d).

End Dec.

Import Dec.

Local Open Scope string_scope.
Local Open Scope Z_scope.

(** ** Exceptions

    [invariant] of tiny-invariant throws when its condition is falsy, and
    so do property reads on [undefined]; a computation either returns or
    throws with a message. *)
Inductive Except (A : Type) :=
| Ok (a : A)
| Throw (message : string).
Arguments Ok {A} a.
Arguments Throw {A} message.

#[global] Instance except_ret : MRet Except := fun A a => Ok a.
#[global] Instance except_bind : MBind Except :=
  fun A B f m => match m with Ok a => f a | Throw e => Throw e end.
#[global] Instance except_fmap : FMap Except :=
  fun A B f m => match m with Ok a => Ok (f a) | Throw e => Throw e end.

Definition invariant (condition : bool) (message : string) : Except unit :=
  if condition then Ok tt else Throw message.

(** [invariant(value, message)] on a value that is either an object or
    [undefined]. *)
Definition defined {A} (value : option A) (message : string) : Except A :=
  match value with
  | Some a => Ok a
  | None => Throw message
  end.


(** ** Keys, numbers and JavaScript values *)

(** A [PublicKey] is identified with its base58 rendering, which is how
    every map of the program keys it. *)
Abbreviation PublicKey := string.

Definition TOKEN_PROGRAM_ID : PublicKey := "TokenkegQfeZyiNwAJbNbGKPFXCWuBvf9Ss623VQ5DA".
Definition NATIVE_MINT : PublicKey := "So11111111111111111111111111111111111111112".

(** globals.ts *)
Definition WHIRLPOOL_PROGRAM_ID : PublicKey := "whirLbMiicVdio4qvUfM5KAg6Ct8VwpYzGff3uctyCc".
Definition PAYABLE_RENT_LAMPORTS : Z := 2394240 + 1461600 + 2039280 + 15616720.
Definition PAYABLE_RENT_LAMPORTS_WITHOUT_METADATA : Z := 2394240 + 1461600 + 2039280.
Definition RECLAIMABLE_RENT_LAMPORTS : Z := 2394240 + 2039280.
Definition CLOSE_TRANSACTION_LAMPORTS : Z := 10000.

(** The values the decoder inspects dynamically: the [parsed] payload of
    a parsed instruction and the [data] object of a decoded whirlpool
    instruction.  Numbers are the integers of the instruction data; [JBN]
    is an instance of [BN]. *)
#[warnings="-register-all"]
Inductive JsValue :=
| JUndefined
| JNull
| JBool (b : bool)
| JNumber (n : Z)
| JString (s : string)
| JBN (n : Z)
| JObject (fields : gmap string JsValue).

(** [key in value]: a TypeError unless the right operand is an object. *)
Definition js_in (key : string) (value : JsValue) : Except bool :=
  match value with
  | JObject fields => Ok (bool_decide (is_Some (fields !! key)))
  | JBN _ => Ok false
  | _ => Throw "TypeError: Cannot use 'in' operator"
  end.

(** [value.key], for a value known not to be [null] or [undefined] *)
Definition js_get (key : string) (value : JsValue) : JsValue :=
  match value with
  | JObject fields => default JUndefined (fields !! key)
  | _ => JUndefined
  end.

Definition js_typeof (value : JsValue) : string :=
  match value with
  | JUndefined => "undefined"
  | JNull | JBN _ | JObject _ => "object"
  | JBool _ => "boolean"
  | JNumber _ => "number"
  | JString _ => "string"
  end.

(** [new BN(number)]: bn.js asserts that the number is below 2^53. *)
Definition BN_of_number (n : Z) : Except Z :=
  _ ← invariant (Z.abs n <? 2 ^ 53) "Assertion failed";
  mret n.

(** ASCII white space *)
Definition is_space (c : ascii) : bool :=
  let n := nat_of_ascii c in
  (Nat.eqb n 32 || (Nat.leb 9 n && Nat.leb n 13))%bool.

Fixpoint parseBase (digits : list ascii) (r : Z) : Except Z :=
  match digits with
  | [] => Ok r
  | c :: rest =>
      let b := Z.of_nat (nat_of_ascii c) - 48 in
      _ ← invariant ((0 <=? b) && (b <? 10)) "Invalid character";
      parseBase rest (r * 10 + b)
  end.

(** [new BN(string)] in base ten: white space is dropped, a leading minus
    sign is accepted, any other character that is not a digit fails the
    library's assertion. *)
Definition BN_of_string (s : string) : Except Z :=
  match filter (λ c, negb (is_space c)) (list_ascii_of_string s) with
  | "-"%char :: digits => r ← parseBase digits 0; mret (- r)
  | digits => parseBase digits 0
  end.

(** An insertion-ordered [Map] with string keys, for the maps whose
    iteration order the program uses: [set] on a present key replaces the
    value in place, on a new key appends. *)
Fixpoint Map_set {V} (key : string) (value : V) (m : list (string * V)) : list (string * V) :=
  match m with
  | [] => [(key, value)]
  | (k, v) :: rest =>
      if String.eqb k key then (k, value) :: rest else (k, v) :: Map_set key value rest
  end.

Fixpoint Map_get {V} (key : string) (m : list (string * V)) : option V :=
  match m with
  | [] => None
  | (k, v) :: rest => if String.eqb k key then Some v else Map_get key rest
  end.

Definition Map_values {V} (m : list (string * V)) : list V := m.*2.

(** [array[i]] for an index that may be negative *)
Definition at_index {A} (l : list A) (i : Z) : option A :=
  if i <? 0 then None else l !! Z.to_nat i.

(** [array.findIndex(p)] *)
Fixpoint findIndex {A} (p : A → bool) (l : list A) : Z :=
  match l with
  | [] => -1
  | x :: rest =>
      if p x then 0
      else let i := findIndex p rest in if i =? -1 then -1 else 1 + i
  end.

(** ** gather-instructions.ts *)

Inductive InstructionShape :=
| ParsedInstruction (program : string) (programId : PublicKey) (parsed : JsValue)
| PartiallyDecodedInstruction (programId : PublicKey) (accounts : list PublicKey) (data : string).

Record GatheredInstruction := {
  shape : InstructionShape;
  signature : string;
  blockTime : Z;
  transactionFee : Z;
  tokenMints : gmap string PublicKey;
}.

Definition programId (instruction : GatheredInstruction) : PublicKey :=
  match shape instruction with
  | ParsedInstruction _ id _ => id
  | PartiallyDecodedInstruction id _ _ => id
  end.

(** ** decode-transaction.ts *)

Module OpenPosition.
Record t := {
  whirlpool : PublicKey;
  position : PublicKey;
  positionMint : PublicKey;
  owner : PublicKey;
  tickUpperIndex : Z;
  tickLowerIndex : Z;
  rentFee : Z;
}.
End OpenPosition.

Module IncreaseLiquidity.
Record t := {
  whirlpool : PublicKey;
  position : PublicKey;
  liquidityIn : Z;
  tokenAMint : PublicKey;
  tokenBMint : PublicKey;
  tokenAIn : Z;
  tokenBIn : Z;
}.
End IncreaseLiquidity.

Module DecreaseLiquidity.
Record t := {
  whirlpool : PublicKey;
  position : PublicKey;
  liquidityOut : Z;
  tokenAMint : PublicKey;
  tokenBMint : PublicKey;
  tokenAOut : Z;
  tokenBOut : Z;
}.
End DecreaseLiquidity.

Module CollectFees.
Record t := {
  whirlpool : PublicKey;
  position : PublicKey;
  tokenAMint : PublicKey;
  tokenBMint : PublicKey;
  tokenAFee : Z;
  tokenBFee : Z;
}.
End CollectFees.

Module CollectReward.
Record t := {
  whirlpool : PublicKey;
  position : PublicKey;
  rewardIndex : Z;
  rewardMint : PublicKey;
  rewardAmount : Z;
}.
End CollectReward.

Module ClosePosition.
Record t := {
  position : PublicKey;
  reclaimedRent : Z;
}.
End ClosePosition.

(** The [type] tag of the union is the constructor. *)
Inductive InstructionUnion :=
| openPosition (i : OpenPosition.t)
| increaseLiquidity (i : IncreaseLiquidity.t)
| decreaseLiquidity (i : DecreaseLiquidity.t)
| collectFees (i : CollectFees.t)
| collectReward (i : CollectReward.t)
| closePosition (i : ClosePosition.t).

(** [InstructionUnion & GatheredInstruction] *)
Record DecodedInstruction := {
  ix : InstructionUnion;
  gathered : GatheredInstruction;
}.

Definition position (instruction : DecodedInstruction) : PublicKey :=
  match ix instruction with
  | openPosition i => OpenPosition.position i
  | increaseLiquidity i => IncreaseLiquidity.position i
  | decreaseLiquidity i => DecreaseLiquidity.position i
  | collectFees i => CollectFees.position i
  | collectReward i => CollectReward.position i
  | closePosition i => ClosePosition.position i
  end.

Definition is_openPosition (instruction : DecodedInstruction) : bool :=
  match ix instruction with openPosition _ => true | _ => false end.

Definition is_closePosition (instruction : DecodedInstruction) : bool :=
  match ix instruction with closePosition _ => true | _ => false end.

(** [typeof value === "number"], then the number *)
Definition number (value : JsValue) (message : string) : Except Z :=
  match value with
  | JNumber n => Ok n
  | _ => Throw message
  end.

(** [value instanceof BN], then the big number *)
Definition instanceofBN (value : JsValue) (message : string) : Except Z :=
  match value with
  | JBN n => Ok n
  | _ => Throw message
  end.

Definition decodeOpenPosition (accounts : list PublicKey) (data : JsValue) (name : string)
  : Except OpenPosition.t :=
  let whirlpoolAccountIndex :=
    findIndex (λ account, String.eqb account TOKEN_PROGRAM_ID) accounts - 1 in
  whirlpoolAccount ← defined (at_index accounts whirlpoolAccountIndex)
    "Could not find whirlpool account for openPosition ix";
  ownerAccount ← defined (accounts !! 1%nat)
    "Could not find owner account for openPosition ix";
  positionAccount ← defined (accounts !! 2%nat)
    "Could not find position account for openPosition ix";
  positionMintAccount ← defined (accounts !! 3%nat)
    "Could not find position mint account for openPosition ix";
  hasLower ← js_in "tickLowerIndex" data;
  _ ← invariant hasLower "Instruction data does not contain tickLowerIndex";
  data_tickLowerIndex ← number (js_get "tickLowerIndex" data) "tickLowerIndex is not a number";
  hasUpper ← js_in "tickUpperIndex" data;
  _ ← invariant hasUpper "Instruction data does not contain tickUpperIndex";
  data_tickUpperIndex ← number (js_get "tickUpperIndex" data) "tickUpperIndex is not a number";
  let rentFee :=
    if String.eqb name "openPositionWithMetadata"
    then PAYABLE_RENT_LAMPORTS
    else PAYABLE_RENT_LAMPORTS_WITHOUT_METADATA in
  mret {|
    OpenPosition.whirlpool := whirlpoolAccount;
    OpenPosition.position := positionAccount;
    OpenPosition.owner := ownerAccount;
    OpenPosition.positionMint := positionMintAccount;
    OpenPosition.tickUpperIndex := data_tickLowerIndex;
    OpenPosition.tickLowerIndex := data_tickUpperIndex;
    OpenPosition.rentFee := rentFee;
  |}.

Definition reduceTokenMintFromAccount
    (instruction : option GatheredInstruction) (tokenAccount : option PublicKey)
  : Except PublicKey :=
  instruction ← defined instruction "TypeError: Cannot read properties of undefined";
  tokenAccount ← defined tokenAccount "TypeError: Cannot read properties of undefined";
  defined (tokenMints instruction !! tokenAccount) "Could reduce mint from token account".

(** The test of the scanning loop: a parsed instruction of the spl-token
    program whose payload has type [transfer]. *)
Definition isTokenTransfer (instruction : GatheredInstruction) : bool :=
  match shape instruction with
  | ParsedInstruction program _ parsed =>
      String.eqb program "spl-token" &&
      match parsed with
      | JObject fields =>
          match fields !! "type" with
          | Some (JString type) => String.eqb type "transfer"
          | _ => false
          end
      | _ => false
      end
  | PartiallyDecodedInstruction _ _ _ => false
  end.

Definition parsed (instruction : GatheredInstruction) : JsValue :=
  match shape instruction with
  | ParsedInstruction _ _ parsed => parsed
  | PartiallyDecodedInstruction _ _ _ => JUndefined
  end.

(** The body of the loop once the test has passed. *)
Definition transferAmount (instruction : GatheredInstruction) : Except Z :=
  hasInfo ← js_in "info" (parsed instruction);
  _ ← invariant hasInfo "Transfer instruction does not contain info";
  let info := js_get "info" (parsed instruction) in
  _ ← invariant (String.eqb (js_typeof info) "object") "Transfer info is not an object";
  hasAmount ← js_in "amount" info;
  _ ← invariant hasAmount "Transfer info does not contain amount";
  match js_get "amount" info with
  | JString amount => BN_of_string amount
  | _ => Throw "Reward amount is not a string"
  end.

(** [for (let i = start; i < instructions.length; i++)], over the
    instructions from [i] on *)
Fixpoint scanTransfers (i : nat) (rest : list GatheredInstruction) : Except (option (Z * nat)) :=
  match rest with
  | [] => Ok None
  | instruction :: rest =>
      if isTokenTransfer instruction
      then amount ← transferAmount instruction; mret (Some (amount, i))
      else scanTransfers (S i) rest
  end.

Definition nextTokenTransferAmount (index : nat) (instructions : list GatheredInstruction)
  : Except (option (Z * nat)) :=
  scanTransfers (S index) (drop (S index) instructions).

(** The shared shape of the three dual-token decoders: the first transfer
    after [index], then the first transfer after that one. *)
Definition twoTransfers (index : nat) (instructions : list GatheredInstruction)
    (message : string) : Except (Z * Z) :=
  first ← nextTokenTransferAmount index instructions;
  '(tokenA, nextTokenTransferIndex) ← defined first message;
  second ← nextTokenTransferAmount nextTokenTransferIndex instructions;
  '(tokenB, _) ← defined second message;
  mret (tokenA, tokenB).

Definition decodeIncreaseLiquidity (accounts : list PublicKey) (data : JsValue) (name : string)
    (index : nat) (instructions : list GatheredInstruction) : Except IncreaseLiquidity.t :=
  whirlpoolAccount ← defined (accounts !! 0%nat)
    "Could not find whirlpool account for openPosition ix";
  positionAccount ← defined (accounts !! 3%nat)
    "Could not find position account for openPosition ix";
  hasAmount ← js_in "liquidityAmount" data;
  _ ← invariant hasAmount "Instruction data does not contain liquidityAmount";
  liquidityAmount ← instanceofBN (js_get "liquidityAmount" data) "liquidityAmount is not a number";
  tokenAMint ← reduceTokenMintFromAccount (instructions !! index) (accounts !! 7%nat);
  tokenBMint ← reduceTokenMintFromAccount (instructions !! index) (accounts !! 8%nat);
  '(tokenAIn, tokenBIn) ← twoTransfers index instructions
    "Could not find reward amount for increaseLiquidity ix";
  mret {|
    IncreaseLiquidity.whirlpool := whirlpoolAccount;
    IncreaseLiquidity.position := positionAccount;
    IncreaseLiquidity.liquidityIn := liquidityAmount;
    IncreaseLiquidity.tokenAMint := tokenAMint;
    IncreaseLiquidity.tokenBMint := tokenBMint;
    IncreaseLiquidity.tokenAIn := tokenAIn;
    IncreaseLiquidity.tokenBIn := tokenBIn;
  |}.

Definition decodeDecreaseLiquidity (accounts : list PublicKey) (data : JsValue) (name : string)
    (index : nat) (instructions : list GatheredInstruction) : Except DecreaseLiquidity.t :=
  whirlpoolAccount ← defined (accounts !! 0%nat)
    "Could not find whirlpool account for decreaseLiquidity ix";
  positionAccount ← defined (accounts !! 3%nat)
    "Could not find position account for decreaseLiquidity ix";
  hasAmount ← js_in "liquidityAmount" data;
  _ ← invariant hasAmount "Instruction data does not contain liquidityAmount";
  liquidityAmount ← instanceofBN (js_get "liquidityAmount" data) "liquidityAmount is not a number";
  tokenAMint ← reduceTokenMintFromAccount (instructions !! index) (accounts !! 7%nat);
  tokenBMint ← reduceTokenMintFromAccount (instructions !! index) (accounts !! 8%nat);
  '(tokenAOut, tokenBOut) ← twoTransfers index instructions
    "Could not find reward amount for decreaseLiquidity ix";
  mret {|
    DecreaseLiquidity.whirlpool := whirlpoolAccount;
    DecreaseLiquidity.position := positionAccount;
    DecreaseLiquidity.liquidityOut := liquidityAmount;
    DecreaseLiquidity.tokenAMint := tokenAMint;
    DecreaseLiquidity.tokenBMint := tokenBMint;
    DecreaseLiquidity.tokenAOut := tokenAOut;
    DecreaseLiquidity.tokenBOut := tokenBOut;
  |}.

Definition decodeCollectFee (accounts : list PublicKey) (data : JsValue) (name : string)
    (index : nat) (instructions : list GatheredInstruction) : Except CollectFees.t :=
  whirlpoolAccount ← defined (accounts !! 0%nat)
    "Could not find whirlpool account for collectFees ix";
  positionAccount ← defined (accounts !! 2%nat)
    "Could not find position account for collectFees ix";
  tokenAMint ← reduceTokenMintFromAccount (instructions !! index) (accounts !! 5%nat);
  tokenBMint ← reduceTokenMintFromAccount (instructions !! index) (accounts !! 7%nat);
  '(tokenAFee, tokenBFee) ← twoTransfers index instructions
    "Could not find reward amount for collectFee ix";
  mret {|
    CollectFees.whirlpool := whirlpoolAccount;
    CollectFees.position := positionAccount;
    CollectFees.tokenAMint := tokenAMint;
    CollectFees.tokenBMint := tokenBMint;
    CollectFees.tokenAFee := tokenAFee;
    CollectFees.tokenBFee := tokenBFee;
  |}.

Definition decodeCollectReward (accounts : list PublicKey) (data : JsValue) (name : string)
    (index : nat) (instructions : list GatheredInstruction) : Except CollectReward.t :=
  whirlpoolAccount ← defined (accounts !! 0%nat)
    "Could not find whirlpool account for collectFees ix";
  positionAccount ← defined (accounts !! 2%nat)
    "Could not find position account for collectFees ix";
  hasIndex ← js_in "rewardIndex" data;
  _ ← invariant hasIndex "Instruction data does not contain liquidityAmount";
  rewardIndex ← number (js_get "rewardIndex" data) "liquidityAmount is not a number";
  rewardMint ← reduceTokenMintFromAccount (instructions !! index) (accounts !! 5%nat);
  first ← nextTokenTransferAmount index instructions;
  '(rewardAmount, _) ← defined first "Could not find reward amount for collectReward ix";
  mret {|
    CollectReward.whirlpool := whirlpoolAccount;
    CollectReward.position := positionAccount;
    CollectReward.rewardIndex := rewardIndex;
    CollectReward.rewardMint := rewardMint;
    CollectReward.rewardAmount := rewardAmount;
  |}.

Definition decodeClosePosition (accounts : list PublicKey) (data : JsValue)
  : Except ClosePosition.t :=
  positionAccount ← defined (accounts !! 2%nat)
    "Could not find position account for collectFees ix";
  mret {|
    ClosePosition.position := positionAccount;
    ClosePosition.reclaimedRent := RECLAIMABLE_RENT_LAMPORTS;
  |}.

(** The entries of [decodeInstructionMap], looked up by the names the
    coder gives to the instructions of the whirlpool IDL. *)
Definition InstructionDecoder : Type :=
  list PublicKey → JsValue → string → nat → list GatheredInstruction → Except InstructionUnion.

Definition decodeInstructionMap (name : string) : option InstructionDecoder :=
  if String.eqb name "openPosition" || String.eqb name "openPositionWithMetadata" then
    Some (λ accounts data name _ _, openPosition <$> decodeOpenPosition accounts data name)
  else if String.eqb name "increaseLiquidity" then
    Some (λ accounts data name index instructions,
            increaseLiquidity <$> decodeIncreaseLiquidity accounts data name index instructions)
  else if String.eqb name "decreaseLiquidity" then
    Some (λ accounts data name index instructions,
            decreaseLiquidity <$> decodeDecreaseLiquidity accounts data name index instructions)
  else if String.eqb name "collectFees" then
    Some (λ accounts data name index instructions,
            collectFees <$> decodeCollectFee accounts data name index instructions)
  else if String.eqb name "collectReward" then
    Some (λ accounts data name index instructions,
            collectReward <$> decodeCollectReward accounts data name index instructions)
  else if String.eqb name "closePosition" then
    Some (λ accounts data _ _ _, closePosition <$> decodeClosePosition accounts data)
  else None.

Section Decoder.

(** [borshCoder.instruction.decode(data, "base58")] of the Anchor coder
    built from the whirlpool IDL: the instruction's name and data object,
    or [null] when the data is not an instruction of the program. *)
Variable borshDecode : string → option (string * JsValue).

Definition decodeTransaction (index : nat) (instructions : list GatheredInstruction)
  : Except DecodedInstruction :=
  instruction ← defined (instructions !! index) "TypeError: Cannot read properties of undefined";
  _ ← invariant (String.eqb (programId instruction) WHIRLPOOL_PROGRAM_ID)
        "Instruction is not a whirlpool instruction";
  match shape instruction with
  | ParsedInstruction _ _ _ => Throw "Instruction is not a parsed instruction"
  | PartiallyDecodedInstruction _ accounts data =>
      '(name, decoded) ← defined (borshDecode data) "Instruction data does not contain name";
      _ ← invariant (negb (String.eqb name "")) "Instruction data does not contain name";
      handler ← defined (decodeInstructionMap name)
        ("Instruction data name " +:+ name +:+ " is not supported");
      i ← handler accounts decoded name index instructions;
      mret {| ix := i; gathered := instruction |}
  end.

(** The two nested loops with their [try]/[catch]: every index of every
    transaction is tried, a failed decode is skipped. *)
Definition decodeAll (transactions : list (list GatheredInstruction)) : list DecodedInstruction :=
  transactions ≫= λ transaction,
    omap (λ j, match decodeTransaction j transaction with
               | Ok instruction => Some instruction
               | Throw _ => None
               end)
         (seq 0 (length transaction)).

Definition decodeTransactions (transactions : list (list GatheredInstruction))
  : list (string * list DecodedInstruction) :=
  foldl (λ acc instruction,
           let current := default [] (Map_get (position instruction) acc) in
           Map_set (position instruction) (current ++ [instruction])%list acc)
        [] (decodeAll transactions).

End Decoder.

(** ** logger.ts

    A call of [warn] or [debug] is recorded with its arguments; what
    reaches the terminal depends on the command line flags. *)
Module Logger.

Record Args := {
  quiet : bool;
  debug : bool;
  fullAddress : bool;
}.

Inductive Part :=
| text (s : string)
| count (n : nat)
| linkAddress (addresses : list PublicKey)
| error (message : string).

Inductive Stream := stdout | stderr.

Inductive Call :=
| call_debug (message : list Part)
| call_warn (message : list Part).

Definition log (args : Args) (message : list Part) (file : Stream)
  : list (Stream * list Part) :=
  if quiet args then [] else [(file, message)].

Definition write_debug (args : Args) (message : list Part) : list (Stream * list Part) :=
  if debug args then log args message stdout else [].

Definition write_warn (args : Args) (message : list Part) : list (Stream * list Part) :=
  if debug args then log args message stderr else [].

(** What a sequence of logger calls writes. *)
Definition written (args : Args) (calls : list Call) : list (Stream * list Part) :=
  calls ≫= λ c,
    match c with
    | call_debug message => write_debug args message
    | call_warn message => write_warn args message
    end.

End Logger.

(** ** price-fetcher.ts *)

Definition priceKey (mint : PublicKey) (time : Z) : string :=
  if time =? 0 then mint else mint +:+ ":" +:+ pretty time.

Definition convertToUiAmount (amount : Z) (decimals : nat) : Decimal :=
  div (of_Z amount) (pow10 decimals).

(** ** analyze-position.ts *)

Record Token := {
  mint : PublicKey;
  decimals : nat;
}.

Record WhirlpoolData := {
  tokenMintA : PublicKey;
  tokenMintB : PublicKey;
  rewardInfos : list PublicKey;
}.

(** The fields [analyzeInstructions] returns. *)
Record LedgerTotals := {
  depositedValue : Decimal;
  withdrawnValue : Decimal;
  forgoneValue : Decimal;
  positionSize : Decimal;
  collectedFeesValue : Decimal;
  collectedRewardsValue : Decimal;
  paidRent : Decimal;
  transactionCost : Decimal;
}.

(** The fields [getOutstandingBalances] returns. *)
Record Balances := {
  currentValue : Decimal;
  collectibleFeesValue : Decimal;
  collectibleRewardsValue : Decimal;
  reclaimableRent : Decimal;
}.

Record PositionSummary := {
  summary_whirlpool : PublicKey;
  summary_position : PublicKey;
  positionMint : PublicKey;
  owner : PublicKey;
  openedAt : Z;
  closedAt : option Z;
  analyzedInstructions : LedgerTotals;
  positionBalance : Balances;
  profit : Decimal;
  profitRatio : Decimal;
  forgoneProfit : Decimal;
  forgoneProfitRatio : Decimal;
  opportunityCost : Decimal;
  opportunityCostRatio : Decimal;
}.

(** The local variables of [analyzeInstructions] that the loop updates. *)
Module St.
Record t := {
  rollingTokenAAmount : Decimal;
  rollingTokenBAmount : Decimal;
  totalLiquidity : Z;
  transactionCosts : list (string * Decimal);
  depositedValue : Decimal;
  withdrawnValue : Decimal;
  forgoneValue : Decimal;
  positionSize : Decimal;
  collectedFeesValue : Decimal;
  collectedRewardsValue : Decimal;
  paidRent : Decimal;
}.

Definition init : t := {|
  rollingTokenAAmount := zero;
  rollingTokenBAmount := zero;
  totalLiquidity := 0;
  transactionCosts := [];
  depositedValue := zero;
  withdrawnValue := zero;
  forgoneValue := zero;
  positionSize := zero;
  collectedFeesValue := zero;
  collectedRewardsValue := zero;
  paidRent := zero;
|}.
End St.

(** [array.sort(compare)]: the sort is stable, an element goes before the
    first later element it does not compare greater than. *)
Fixpoint sort_insert {A} (compare : A → A → Z) (x : A) (sorted : list A) : list A :=
  match sorted with
  | [] => [x]
  | y :: rest =>
      if compare x y <=? 0 then x :: y :: rest else y :: sort_insert compare x rest
  end.

Definition Array_sort {A} (compare : A → A → Z) (array : list A) : list A :=
  foldr (sort_insert compare) [] array.

Definition byBlockTime (a b : DecodedInstruction) : Z :=
  blockTime (gathered a) - blockTime (gathered b).

(** [[a, b].reduce((acc, curr) => acc.add(curr), new Decimal(0))] *)
Definition sum (values : list Decimal) : Decimal := foldl plus zero values.

Module Set_.
Import St.
Definition rollingTokenAAmount (v : Decimal) (s : t) : t :=
  Build_t v (rollingTokenBAmount s) (totalLiquidity s) (transactionCosts s) (depositedValue s)
    (withdrawnValue s) (forgoneValue s) (positionSize s) (collectedFeesValue s)
    (collectedRewardsValue s) (paidRent s).
Definition rollingTokenBAmount (v : Decimal) (s : t) : t :=
  Build_t (St.rollingTokenAAmount s) v (totalLiquidity s) (transactionCosts s) (depositedValue s)
    (withdrawnValue s) (forgoneValue s) (positionSize s) (collectedFeesValue s)
    (collectedRewardsValue s) (paidRent s).
Definition totalLiquidity (v : Z) (s : t) : t :=
  Build_t (St.rollingTokenAAmount s) (St.rollingTokenBAmount s) v (transactionCosts s)
    (depositedValue s) (withdrawnValue s) (forgoneValue s) (positionSize s)
    (collectedFeesValue s) (collectedRewardsValue s) (paidRent s).
Definition transactionCosts (v : list (string * Decimal)) (s : t) : t :=
  Build_t (St.rollingTokenAAmount s) (St.rollingTokenBAmount s) (St.totalLiquidity s) v
    (depositedValue s) (withdrawnValue s) (forgoneValue s) (positionSize s)
    (collectedFeesValue s) (collectedRewardsValue s) (paidRent s).
Definition depositedValue (v : Decimal) (s : t) : t :=
  Build_t (St.rollingTokenAAmount s) (St.rollingTokenBAmount s) (St.totalLiquidity s)
    (St.transactionCosts s) v (withdrawnValue s) (forgoneValue s) (positionSize s)
    (collectedFeesValue s) (collectedRewardsValue s) (paidRent s).
Definition withdrawnValue (v : Decimal) (s : t) : t :=
  Build_t (St.rollingTokenAAmount s) (St.rollingTokenBAmount s) (St.totalLiquidity s)
    (St.transactionCosts s) (St.depositedValue s) v (forgoneValue s) (positionSize s)
    (collectedFeesValue s) (collectedRewardsValue s) (paidRent s).
Definition forgoneValue (v : Decimal) (s : t) : t :=
  Build_t (St.rollingTokenAAmount s) (St.rollingTokenBAmount s) (St.totalLiquidity s)
    (St.transactionCosts s) (St.depositedValue s) (St.withdrawnValue s) v (positionSize s)
    (collectedFeesValue s) (collectedRewardsValue s) (paidRent s).
Definition positionSize (v : Decimal) (s : t) : t :=
  Build_t (St.rollingTokenAAmount s) (St.rollingTokenBAmount s) (St.totalLiquidity s)
    (St.transactionCosts s) (St.depositedValue s) (St.withdrawnValue s) (St.forgoneValue s) v
    (collectedFeesValue s) (collectedRewardsValue s) (paidRent s).
Definition collectedFeesValue (v : Decimal) (s : t) : t :=
  Build_t (St.rollingTokenAAmount s) (St.rollingTokenBAmount s) (St.totalLiquidity s)
    (St.transactionCosts s) (St.depositedValue s) (St.withdrawnValue s) (St.forgoneValue s)
    (St.positionSize s) v (collectedRewardsValue s) (paidRent s).
Definition collectedRewardsValue (v : Decimal) (s : t) : t :=
  Build_t (St.rollingTokenAAmount s) (St.rollingTokenBAmount s) (St.totalLiquidity s)
    (St.transactionCosts s) (St.depositedValue s) (St.withdrawnValue s) (St.forgoneValue s)
    (St.positionSize s) (St.collectedFeesValue s) v (paidRent s).
Definition paidRent (v : Decimal) (s : t) : t :=
  Build_t (St.rollingTokenAAmount s) (St.rollingTokenBAmount s) (St.totalLiquidity s)
    (St.transactionCosts s) (St.depositedValue s) (St.withdrawnValue s) (St.forgoneValue s)
    (St.positionSize s) (St.collectedFeesValue s) (St.collectedRewardsValue s) v.
End Set_.

(** [new Decimal(liquidityOut.toString()).div(new Decimal(totalLiquidity.toString()))] *)
Definition withdrawnPercentage (liquidityOut totalLiquidity : Z) : Decimal :=
  div (of_Z liquidityOut) (of_Z totalLiquidity).

(** One iteration of the loop of [analyzeInstructions]. *)
Definition step (tokenMap : gmap string Token) (priceMap : gmap string Decimal)
    (solToken tokenA tokenB : Token) (st : St.t) (instruction : DecodedInstruction)
  : Except St.t :=
  let time := blockTime (gathered instruction) in
  solPrice ← defined (priceMap !! priceKey NATIVE_MINT time)
    ("SOL price not found at " +:+ pretty time);
  tokenAPrice ← defined (priceMap !! priceKey (mint tokenA) time)
    ("Token A price not found at " +:+ pretty time);
  tokenBPrice ← defined (priceMap !! priceKey (mint tokenB) time)
    ("Token B price not found at " +:+ pretty time);
  fee ← BN_of_number (transactionFee (gathered instruction));
  let transactionFee := times (convertToUiAmount fee (decimals solToken)) solPrice in
  let st :=
    Set_.transactionCosts
      (Map_set (signature (gathered instruction)) transactionFee (St.transactionCosts st)) st in
  match ix instruction with
  | openPosition i =>
      let rentFee :=
        times (convertToUiAmount (OpenPosition.rentFee i) (decimals solToken)) solPrice in
      mret (Set_.paidRent (plus (St.paidRent st) rentFee) st)
  | increaseLiquidity i =>
      let tokenAAmount := convertToUiAmount (IncreaseLiquidity.tokenAIn i) (decimals tokenA) in
      let st := Set_.rollingTokenAAmount (plus (St.rollingTokenAAmount st) tokenAAmount) st in
      let tokenAInValue := times tokenAAmount tokenAPrice in
      let tokenBAmount := convertToUiAmount (IncreaseLiquidity.tokenBIn i) (decimals tokenB) in
      let st := Set_.rollingTokenBAmount (plus (St.rollingTokenBAmount st) tokenBAmount) st in
      let tokenBInValue := times tokenBAmount tokenBPrice in
      let st :=
        Set_.depositedValue (plus (plus (St.depositedValue st) tokenAInValue) tokenBInValue) st in
      let st :=
        Set_.totalLiquidity (St.totalLiquidity st + IncreaseLiquidity.liquidityIn i) st in
      mret (Set_.positionSize
              (max (St.positionSize st) (minus (St.depositedValue st) (St.withdrawnValue st)))
              st)
  | decreaseLiquidity i =>
      let tokenAOutValue :=
        times (convertToUiAmount (DecreaseLiquidity.tokenAOut i) (decimals tokenA)) tokenAPrice in
      let tokenBOutValue :=
        times (convertToUiAmount (DecreaseLiquidity.tokenBOut i) (decimals tokenB)) tokenBPrice in
      let st :=
        Set_.withdrawnValue (plus (plus (St.withdrawnValue st) tokenAOutValue) tokenBOutValue) st in
      let withdrawnPercentage :=
        withdrawnPercentage (DecreaseLiquidity.liquidityOut i) (St.totalLiquidity st) in
      let partialTokenAAmount := times (St.rollingTokenAAmount st) withdrawnPercentage in
      let partialTokenBAmount := times (St.rollingTokenBAmount st) withdrawnPercentage in
      let st :=
        Set_.rollingTokenBAmount (minus (St.rollingTokenBAmount st) partialTokenBAmount) st in
      let st :=
        Set_.rollingTokenAAmount (minus (St.rollingTokenAAmount st) partialTokenAAmount) st in
      let partialForgoneValue :=
        sum [times partialTokenAAmount tokenAPrice; times partialTokenBAmount tokenBPrice] in
      let st := Set_.forgoneValue (plus (St.forgoneValue st) partialForgoneValue) st in
      mret (Set_.totalLiquidity (St.totalLiquidity st - DecreaseLiquidity.liquidityOut i) st)
  | collectFees i =>
      let tokenAFeeValue :=
        times (convertToUiAmount (CollectFees.tokenAFee i) (decimals tokenA)) tokenAPrice in
      let tokenBFeeValue :=
        times (convertToUiAmount (CollectFees.tokenBFee i) (decimals tokenB)) tokenBPrice in
      mret (Set_.collectedFeesValue
              (plus (plus (St.collectedFeesValue st) tokenAFeeValue) tokenBFeeValue) st)
  | collectReward i =>
      rewardToken ← defined (tokenMap !! CollectReward.rewardMint i) "Reward token not found";
      rewardTokenPrice ← defined (priceMap !! priceKey (mint rewardToken) time)
        "Reward token price not found";
      let rewardValue :=
        times (convertToUiAmount (CollectReward.rewardAmount i) (decimals rewardToken))
              rewardTokenPrice in
      mret (Set_.collectedRewardsValue (plus (St.collectedRewardsValue st) rewardValue) st)
  | closePosition i =>
      let reclaimedRent :=
        times (convertToUiAmount (ClosePosition.reclaimedRent i) (decimals solToken)) solPrice in
      mret (Set_.paidRent (minus (St.paidRent st) reclaimedRent) st)
  end.

(** [for (const instruction of sortedInstructions)] *)
Fixpoint loop (tokenMap : gmap string Token) (priceMap : gmap string Decimal)
    (solToken tokenA tokenB : Token) (st : St.t) (instructions : list DecodedInstruction)
  : Except St.t :=
  match instructions with
  | [] => Ok st
  | instruction :: rest =>
      st ← step tokenMap priceMap solToken tokenA tokenB st instruction;
      loop tokenMap priceMap solToken tokenA tokenB st rest
  end.

(** [analyzeInstructions] up to the end of its loop: the three token
    lookups, then the pass over the sorted instructions. *)
Definition analyzeLoop (sortedInstructions : list DecodedInstruction) (whirlpoolData : WhirlpoolData)
    (tokenMap : gmap string Token) (priceMap : gmap string Decimal)
  : Except (Token * Token * St.t) :=
  solToken ← defined (tokenMap !! NATIVE_MINT) "SOL token not found";
  tokenA ← defined (tokenMap !! tokenMintA whirlpoolData) "Token A not found";
  tokenB ← defined (tokenMap !! tokenMintB whirlpoolData) "Token B not found";
  st ← loop tokenMap priceMap solToken tokenA tokenB St.init sortedInstructions;
  mret (tokenA, tokenB, st).

(** The first component is the caller's array after the call: [sort]
    works in place and returns the array it was given. *)
Definition analyzeInstructions (instructions : list DecodedInstruction)
    (whirlpoolData : WhirlpoolData) (tokenMap : gmap string Token)
    (priceMap : gmap string Decimal)
  : list DecodedInstruction * Except LedgerTotals :=
  let sortedInstructions := Array_sort byBlockTime instructions in
  (sortedInstructions,
   '(tokenA, tokenB, st) ← analyzeLoop sortedInstructions whirlpoolData tokenMap priceMap;
   currentTokenAPrice ← defined (priceMap !! mint tokenA) "Current token A price not found";
   currentTokenBPrice ← defined (priceMap !! mint tokenB) "Current token B price not found";
   let remainingForgoneValue :=
     sum [times (St.rollingTokenAAmount st) currentTokenAPrice;
          times (St.rollingTokenBAmount st) currentTokenBPrice] in
   let forgoneValue := plus (St.forgoneValue st) remainingForgoneValue in
   let transactionCost := foldl plus zero (Map_values (St.transactionCosts st)) in
   mret {|
     depositedValue := St.depositedValue st;
     withdrawnValue := St.withdrawnValue st;
     forgoneValue := forgoneValue;
     positionSize := St.positionSize st;
     collectedFeesValue := St.collectedFeesValue st;
     collectedRewardsValue := St.collectedRewardsValue st;
     paidRent := St.paidRent st;
     transactionCost := transactionCost;
   |}).

Section Summary.

(** The position objects of the whirlpools SDK and the three quotes the
    program asks of it.  Each quote is computed by the SDK from the
    position's own data, its whirlpool data and its tick data. *)
Variable Position : Type.
Variable getWhirlpoolData : Position → WhirlpoolData.
(** [decreaseLiquidityQuoteByLiquidityWithParams] at zero slippage:
    [tokenEstA] and [tokenEstB] *)
Variable decreaseLiquidityQuote : Position → Except (Z * Z).
(** [collectFeesQuote]: [feeOwedA] and [feeOwedB] *)
Variable collectFeesQuote : Position → Except (Z * Z).
(** [collectRewardsQuote]: one amount, or [undefined], per reward *)
Variable collectRewardsQuote : Position → Except (list (option Z)).

Definition getOutstandingBalances (position : option Position) (whirlPool : WhirlpoolData)
    (tokenMap : gmap string Token) (priceMap : gmap string Decimal) : Except Balances :=
  match position with
  | None =>
      mret {|
        currentValue := zero;
        collectibleFeesValue := zero;
        collectibleRewardsValue := zero;
        reclaimableRent := zero;
      |}
  | Some position =>
      let whirlpoolData := getWhirlpoolData position in
      solToken ← defined (tokenMap !! NATIVE_MINT) "SOL token not found";
      tokenA ← defined (tokenMap !! tokenMintA whirlpoolData) "Token A not found";
      tokenB ← defined (tokenMap !! tokenMintB whirlpoolData) "Token B not found";
      solPrice ← defined (priceMap !! NATIVE_MINT) "Current SOL price not found";
      tokenAPrice ← defined (priceMap !! mint tokenA) "Current Token A price not found";
      tokenBPrice ← defined (priceMap !! mint tokenB) "Current Token B price not found";
      '(tokenEstA, tokenEstB) ← decreaseLiquidityQuote position;
      let tokenAAmount := convertToUiAmount tokenEstA (decimals tokenA) in
      let tokenBAmount := convertToUiAmount tokenEstB (decimals tokenB) in
      let currentValue := sum [times tokenAAmount tokenAPrice; times tokenBAmount tokenBPrice] in
      '(feeOwedA, feeOwedB) ← collectFeesQuote position;
      let tokenAFeeAmount := convertToUiAmount feeOwedA (decimals tokenA) in
      let tokenBFeeAmount := convertToUiAmount feeOwedB (decimals tokenB) in
      let collectibleFeesValue :=
        sum [times tokenAFeeAmount tokenAPrice; times tokenBFeeAmount tokenBPrice] in
      oustandingRewardQuote ← collectRewardsQuote position;
      let collectibleRewardsValue :=
        sum (imap (λ index rewardInfo,
                     match mjoin (oustandingRewardQuote !! index),
                           tokenMap !! rewardInfo, priceMap !! rewardInfo with
                     | Some rewardAmount, Some token, Some price =>
                         times (convertToUiAmount rewardAmount (decimals token)) price
                     | _, _, _ => zero
                     end)
                  (rewardInfos whirlPool)) in
      let reclaimableRent :=
        times (convertToUiAmount (RECLAIMABLE_RENT_LAMPORTS - CLOSE_TRANSACTION_LAMPORTS)
                                 (decimals solToken))
              solPrice in
      mret {|
        currentValue := currentValue;
        collectibleFeesValue := collectibleFeesValue;
        collectibleRewardsValue := collectibleRewardsValue;
        reclaimableRent := reclaimableRent;
      |}
  end.

(** What [analyzePosition] does once the ledger totals are known. *)
Definition summarize (openInstruction : OpenPosition.t) (openedAt : Z)
    (closeInstruction : option DecodedInstruction) (position : option Position)
    (whirlpool : WhirlpoolData) (tokenMap : gmap string Token)
    (priceMap : gmap string Decimal) (analyzedInstructions : LedgerTotals)
  : Except PositionSummary :=
  _ ← invariant (gte (depositedValue analyzedInstructions) one)
        "Deposited value to small to accurately analyze";
  positionBalance ← getOutstandingBalances position whirlpool tokenMap priceMap;
  let gains :=
    plus (plus (plus (plus (plus (plus
      (withdrawnValue analyzedInstructions)
      (currentValue positionBalance))
      (collectedFeesValue analyzedInstructions))
      (collectedRewardsValue analyzedInstructions))
      (collectibleFeesValue positionBalance))
      (collectibleRewardsValue positionBalance))
      (reclaimableRent positionBalance) in
  let losses :=
    plus (plus (depositedValue analyzedInstructions)
               (transactionCost analyzedInstructions))
         (paidRent analyzedInstructions) in
  let profit := minus gains losses in
  let profitRatio := div profit (positionSize analyzedInstructions) in
  let forgoneProfit :=
    minus (forgoneValue analyzedInstructions) (depositedValue analyzedInstructions) in
  let forgoneProfitRatio := div forgoneProfit (positionSize analyzedInstructions) in
  let opportunityCost := minus forgoneProfit profit in
  let opportunityCostRatio := div (neg opportunityCost) (positionSize analyzedInstructions) in
  mret {|
    summary_whirlpool := OpenPosition.whirlpool openInstruction;
    summary_position := OpenPosition.position openInstruction;
    positionMint := OpenPosition.positionMint openInstruction;
    owner := OpenPosition.owner openInstruction;
    openedAt := openedAt;
    closedAt := (λ i, blockTime (gathered i)) <$> closeInstruction;
    analyzedInstructions := analyzedInstructions;
    positionBalance := positionBalance;
    profit := profit;
    profitRatio := profitRatio;
    forgoneProfit := forgoneProfit;
    forgoneProfitRatio := forgoneProfitRatio;
    opportunityCost := opportunityCost;
    opportunityCostRatio := opportunityCostRatio;
  |}.

(** The first component is the caller's array after the call. *)
Definition analyzePosition (instructions : list DecodedInstruction)
    (positionMap : gmap string Position) (poolMap : gmap string WhirlpoolData)
    (tokenMap : gmap string Token) (priceMap : gmap string Decimal)
  : list DecodedInstruction * Except PositionSummary :=
  let openInstructions := filter (λ i, is_openPosition i = true) instructions in
  if negb (length openInstructions =? 1)%nat
  then (instructions, Throw "No open instruction found.")
  else
    match openInstructions with
    | {| ix := openPosition openInstruction; gathered := g |} :: _ =>
        let closePositions := filter (λ i, is_closePosition i = true) instructions in
        if negb (length closePositions <=? 1)%nat
        then (instructions, Throw "More than one close instruction found.")
        else
          let closeInstruction :=
            if (length closePositions =? 1)%nat then head closePositions else None in
          match poolMap !! OpenPosition.whirlpool openInstruction with
          | None => (instructions, Throw "Pool not found")
          | Some whirlpool =>
              let position := positionMap !! OpenPosition.position openInstruction in
              let '(instructions, analyzedInstructions) :=
                analyzeInstructions instructions whirlpool tokenMap priceMap in
              (instructions,
               analyzedInstructions ← analyzedInstructions;
               summarize openInstruction (blockTime g) closeInstruction position whirlpool
                 tokenMap priceMap analyzedInstructions)
          end
    | _ => (instructions, Throw "Open instruction is not an open instruction.")
    end.

(** One turn of the [flatMap] of [analyzePositions]: the summaries it
    contributes and the logger calls it makes. *)
Definition analyzeOne (instructions : list DecodedInstruction)
    (positionMap : gmap string Position) (poolMap : gmap string WhirlpoolData)
    (tokenMap : gmap string Token) (priceMap : gmap string Decimal)
  : list PositionSummary * list Logger.Call :=
  match analyzePosition instructions positionMap poolMap tokenMap priceMap with
  | (_, Ok summary) => ([summary], [])
  | (instructions, Throw e) =>
      match head instructions with
      | Some instruction =>
          ([], [Logger.call_warn [Logger.text "Failed to analyze position";
                                  Logger.linkAddress [position instruction];
                                  Logger.error e]])
      | None => ([], [])
      end
  end.

Definition analyzePositions (positions : list (list DecodedInstruction))
    (positionMap : gmap string Position) (poolMap : gmap string WhirlpoolData)
    (tokenMap : gmap string Token) (priceMap : gmap string Decimal)
  : list PositionSummary * list Logger.Call :=
  let results :=
    (λ instructions, analyzeOne instructions positionMap poolMap tokenMap priceMap)
      <$> positions in
  let summaries := results ≫= fst in
  (summaries,
   (results ≫= snd) ++
   [Logger.call_debug
      [Logger.text "Analyzed instructions for"; Logger.count (length summaries);
       Logger.text (if (length summaries =? 1)%nat then "position" else "positions")]])%list.

End Summary.

(** ** Vocabulary of the statements *)

(** A decimal that rounding to [precision] digits leaves alone: every
    result of [plus], [minus], [times] and [div] is one. *)
Definition wf (x : Decimal) : Prop :=
  match x with
  | Fin q => finalise q = q
  | _ => True
  end.

Definition timeOf (instruction : DecodedInstruction) : Z := blockTime (gathered instruction).

(** Ascending block times, as [sort] leaves the array. *)
Definition sortedByBlockTime (instructions : list DecodedInstruction) : Prop :=
  Sorted (λ a b, timeOf a ≤ timeOf b) instructions.

(** A fiat amount given in cents. *)
Definition dollars (cents : Z) : Decimal := Fin (Q2Qc (cents # 100)).

(** ** Sample data

    Two stable coins in one pool, prices an hour apart. *)
Module Sample.

Definition USDC : PublicKey := "EPjFWdd5AufqSSqeM2qN1xzybapC8G4wEGGkZwyTDt1v".
Definition USDT : PublicKey := "Es9vMFrzaCERmJfrF4H2FYD4KCoNkY11McCe8BenwNYB".
Definition pool : PublicKey := "4fuUiYxTQ6QCrdSq9ouBYcTM7bqSwYTSyLueGZLTy4T4".
Definition position1 : PublicKey := "5j3szbi2vnydYoyALNgttPD9YhCNwshUGkhzmzaP4WF7".
Definition mint1 : PublicKey := "6UxPR2nXJNNM5nESVWGAf8NXMVu3SGgYf3ZfUFoGB9cs".
Definition wallet : PublicKey := "7BgBvyjrZX1YKz4oh9mjb8ZScatkkwb8DzFx7LoiVkM3".

Definition tokenMap : gmap string Token :=
  list_to_map [
    (NATIVE_MINT, {| mint := NATIVE_MINT; decimals := 9 |});
    (USDC, {| mint := USDC; decimals := 6 |});
    (USDT, {| mint := USDT; decimals := 6 |})
  ].

Definition whirlpoolData : WhirlpoolData :=
  {| tokenMintA := USDC; tokenMintB := USDT; rewardInfos := [] |}.

Definition poolMap : gmap string WhirlpoolData := {[ pool := whirlpoolData ]}.

Definition t0 : Z := 1700000000.
Definition t1 : Z := 1700003600.
Definition t2 : Z := 1700007200.

(** Token A is worth $1.00 at [t0] and [t1] and $1.10 at [t2] and now;
    token B and SOL do not move. *)
Definition priceMap : gmap string Decimal :=
  list_to_map [
    (priceKey NATIVE_MINT t0, dollars 10000);
    (priceKey NATIVE_MINT t1, dollars 10000);
    (priceKey NATIVE_MINT t2, dollars 10000);
    (priceKey USDC t0, dollars 100);
    (priceKey USDC t1, dollars 100);
    (priceKey USDC t2, dollars 110);
    (priceKey USDT t0, dollars 100);
    (priceKey USDT t1, dollars 100);
    (priceKey USDT t2, dollars 100);
    (NATIVE_MINT, dollars 10000);
    (USDC, dollars 110);
    (USDT, dollars 100)
  ].

Definition at_ (sig : string) (time : Z) (i : InstructionUnion) : DecodedInstruction :=
  {| ix := i;
     gathered := {| shape := PartiallyDecodedInstruction WHIRLPOOL_PROGRAM_ID [] "";
                    signature := sig; blockTime := time; transactionFee := 5000;
                    tokenMints := ∅ |} |}.

Definition open (rent : Z) : InstructionUnion :=
  openPosition {|
    OpenPosition.whirlpool := pool; OpenPosition.position := position1;
    OpenPosition.positionMint := mint1; OpenPosition.owner := wallet;
    OpenPosition.tickUpperIndex := 64; OpenPosition.tickLowerIndex := -64;
    OpenPosition.rentFee := rent |}.

Definition increase (liquidity tokenA tokenB : Z) : InstructionUnion :=
  increaseLiquidity {|
    IncreaseLiquidity.whirlpool := pool; IncreaseLiquidity.position := position1;
    IncreaseLiquidity.liquidityIn := liquidity;
    IncreaseLiquidity.tokenAMint := USDC; IncreaseLiquidity.tokenBMint := USDT;
    IncreaseLiquidity.tokenAIn := tokenA; IncreaseLiquidity.tokenBIn := tokenB |}.

Definition decrease (liquidity tokenA tokenB : Z) : InstructionUnion :=
  decreaseLiquidity {|
    DecreaseLiquidity.whirlpool := pool; DecreaseLiquidity.position := position1;
    DecreaseLiquidity.liquidityOut := liquidity;
    DecreaseLiquidity.tokenAMint := USDC; DecreaseLiquidity.tokenBMint := USDT;
    DecreaseLiquidity.tokenAOut := tokenA; DecreaseLiquidity.tokenBOut := tokenB |}.

Definition close (rent : Z) : InstructionUnion :=
  closePosition {| ClosePosition.position := position1; ClosePosition.reclaimedRent := rent |}.

End Sample.



(** A transaction that opens a position and deposits into it: the
    whirlpool instructions with the token transfers they cause spliced in
    after them. *)
Module SampleTx.
Import Sample.

Definition vaultA : PublicKey := "8sLbNZoA1cfnvMJLPfp98ZLAnFSYCFApfJKMbiXNLwxj".
Definition vaultB : PublicKey := "9RfZwn2Prux6QesG1Noo4HzMEBv3rPndJ2bN2Wwd6a7p".

Definition mints : gmap string PublicKey := {[ vaultA := USDC; vaultB := USDT ]}.

Definition gathered_ (s : InstructionShape) : GatheredInstruction :=
  {| shape := s; signature := "sig1"; blockTime := t1; transactionFee := 5000;
     tokenMints := mints |}.

Definition openAccounts : list PublicKey :=
  [wallet; wallet; position1; mint1; "positionTokenAccount"; pool; TOKEN_PROGRAM_ID;
   "11111111111111111111111111111111"; "SysvarRent111111111111111111111111111111111";
   "ATokenGPvbdGVxr1b2hvZbsiqW5xWH25efTNsLJA8knL"].

Definition openPositionIx : GatheredInstruction :=
  gathered_ (PartiallyDecodedInstruction WHIRLPOOL_PROGRAM_ID openAccounts "open").

Definition openData : JsValue :=
  JObject {[ "bumps" := JObject {[ "positionBump" := JNumber 255 ]};
             "tickLowerIndex" := JNumber (-64);
             "tickUpperIndex" := JNumber 64 ]}.

(** What the decoder makes of [openPositionIx]. *)
Definition openDecoded : DecodedInstruction :=
  {| ix := openPosition
             {| OpenPosition.whirlpool := pool;
                OpenPosition.position := position1;
                OpenPosition.positionMint := mint1;
                OpenPosition.owner := wallet;
                OpenPosition.tickUpperIndex := -64;
                OpenPosition.tickLowerIndex := 64;
                OpenPosition.rentFee := PAYABLE_RENT_LAMPORTS_WITHOUT_METADATA |};
     gathered := openPositionIx |}.

Definition increaseAccounts : list PublicKey :=
  [pool; TOKEN_PROGRAM_ID; wallet; position1; "positionTokenAccount"; "ownerAccountA";
   "ownerAccountB"; vaultA; vaultB; "tickArrayLower"; "tickArrayUpper"].

Definition increaseLiquidityIx : GatheredInstruction :=
  gathered_ (PartiallyDecodedInstruction WHIRLPOOL_PROGRAM_ID increaseAccounts "increase").

Definition increaseData : JsValue :=
  JObject {[ "liquidityAmount" := JBN 100; "tokenMaxA" := JBN 10000000; "tokenMaxB" := JBN 0 ]}.

Definition transfer (amount : string) : GatheredInstruction :=
  gathered_ (ParsedInstruction "spl-token" TOKEN_PROGRAM_ID
    (JObject {[ "type" := JString "transfer";
                "info" := JObject {[ "amount" := JString amount;
                                     "authority" := JString wallet ]} ]})).

Definition memo : GatheredInstruction :=
  gathered_ (ParsedInstruction "spl-memo" "MemoSq4gqABAXKb96qnH8TysNcWxMyWCqXgDLGmfcHr"
    (JString "deposit")).

Definition instructions : list GatheredInstruction :=
  [openPositionIx; increaseLiquidityIx; transfer "10000000"; memo; transfer "0"].

Definition borshDecode (data : string) : option (string * JsValue) :=
  if String.eqb data "open" then
    Some ("openPosition", openData)
  else if String.eqb data "increase" then
    Some ("increaseLiquidity", increaseData)
  else None.

End SampleTx.


(** A whole life of a position: opened, funded with 10 USDC, emptied and
    closed, the rent of the open event reclaimed in full. *)
Module SampleLife.
Import Sample.

Definition opened : DecodedInstruction := at_ "sig0" t0 (open RECLAIMABLE_RENT_LAMPORTS).
Definition funded : DecodedInstruction := at_ "sig1" t1 (increase 100 10000000 0).
Definition emptied : DecodedInstruction := at_ "sig2" t2 (decrease 100 10000000 0).
Definition closed : DecodedInstruction := at_ "sig2" t2 (close RECLAIMABLE_RENT_LAMPORTS).

(** Newest first, as the signature history delivers them. *)
Definition instructions : list DecodedInstruction := [emptied; closed; funded; opened].

End SampleLife.

(** The scenario of the specification: 10 tokens A go in at $1.00 for 100
    units of liquidity, 40 units come out an hour later at $1.10. *)
Module SampleScenario.
Import Sample.

Definition deposit : DecodedInstruction := at_ "sig1" t1 (increase 100 10000000 0).
Definition withdrawal : DecodedInstruction := at_ "sig2" t2 (decrease 40 4000000 0).
Definition instructions : list DecodedInstruction := [withdrawal; deposit].


(** A deposit and its full withdrawal after the price has moved. *)
Definition full : DecodedInstruction := at_ "sig2" t2 (decrease 100 10000000 0).

(** A deposit that the pool counted as no liquidity, and the withdrawal
    of all of that. *)
Definition idle : DecodedInstruction := at_ "sig1" t1 (increase 0 10000000 0).
Definition nothing : DecodedInstruction := at_ "sig2" t2 (decrease 0 0 0).

End SampleScenario.

(** The SDK as the samples need it: no position account is ever looked
    at, every quote is empty. *)
Module SampleSdk.
Definition Position : Type := unit.
Definition getWhirlpoolData (_ : Position) : WhirlpoolData := Sample.whirlpoolData.
Definition decreaseLiquidityQuote (_ : Position) : Except (Z * Z) := Ok (0, 0).
Definition collectFeesQuote (_ : Position) : Except (Z * Z) := Ok (0, 0).
Definition collectRewardsQuote (_ : Position) : Except (list (option Z)) := Ok [].
Definition positionMap : gmap string Position := ∅.

Definition analyzePosition :=
  analyzePosition Position getWhirlpoolData decreaseLiquidityQuote collectFeesQuote
    collectRewardsQuote.
Definition analyzePositions :=
  analyzePositions Position getWhirlpoolData decreaseLiquidityQuote collectFeesQuote
    collectRewardsQuote.

(** The flags as yargs sets them when none is given. *)
Definition defaults : Logger.Args :=
  {| Logger.quiet := false; Logger.debug := false; Logger.fullAddress := false |}.
End SampleSdk.

(** A position funded with half a dollar. *)
Module SampleSmall.
Import Sample.
Definition opened : DecodedInstruction := at_ "sig0" t0 (open PAYABLE_RENT_LAMPORTS).
Definition funded : DecodedInstruction := at_ "sig1" t1 (increase 5 500000 0).
Definition instructions : list DecodedInstruction := [funded; opened].
End SampleSmall.


(** * Properties *)

Local Open Scope list_scope.

(** ** Rounding to twenty significant digits *)
Section Rounding.
Local Open Scope Q_scope.

Lemma Qpow10_succ e : 10 ^ (e + 1) == 10 ^ e * 10.
Proof. rewrite Qpower_plus by discriminate. reflexivity. Qed.

Lemma Qpow10_pos e : 0 < 10 ^ e.
Proof. apply Qpower_0_lt. reflexivity. Qed.

Lemma exp_up_spec fuel : forall q,
  1 <= q -> q < 10 ^ Z.of_nat fuel ->
  10 ^ exp_up fuel q <= q /\ q < 10 ^ (exp_up fuel q + 1).
Proof.
  induction fuel as [|f IH]; intros q H1 Hlt.
  - simpl in *. lra.
  - cbn [exp_up]. destruct (Qle_bool 10 q) eqn:E.
    + apply Qle_bool_iff in E.
      assert (q == q / 10 * 10) as Hq by field.
      destruct (IH (q / 10)) as [Ha Hb].
      * lra.
      * rewrite Nat2Z.inj_succ in Hlt. unfold Z.succ in Hlt.
        rewrite Qpow10_succ in Hlt. lra.
      * set (e := exp_up f (q / 10)) in *.
        replace (1 + e)%Z with (e + 1)%Z by lia.
        rewrite (Qpow10_succ (e + 1)). rewrite (Qpow10_succ e) in *.
        split; lra.
    + assert (q < 10) by (apply Qnot_le_lt; intro C; apply Qle_bool_iff in C; congruence).
      simpl. split; lra.
Qed.

Lemma exp_down_spec fuel : forall q,
  0 < q -> q < 10 -> 1 <= q * 10 ^ Z.of_nat fuel ->
  10 ^ exp_down fuel q <= q /\ q < 10 ^ (exp_down fuel q + 1).
Proof.
  induction fuel as [|f IH]; intros q H0 H10 Hf.
  - simpl in *. lra.
  - cbn [exp_down]. destruct (Qle_bool 1 q) eqn:E.
    + apply Qle_bool_iff in E. simpl. lra.
    + assert (q < 1) by (apply Qnot_le_lt; intro C; apply Qle_bool_iff in C; congruence).
      destruct (IH (q * 10)) as [Ha Hb]; [lra | lra | |].
      * rewrite Nat2Z.inj_succ in Hf. unfold Z.succ in Hf.
        rewrite Qpow10_succ in Hf. lra.
      * set (e := exp_down f (q * 10)) in *.
        replace (e - 1 + 1)%Z with e by lia.
        replace e with ((e - 1) + 1)%Z in Ha, Hb |- * at 2 by lia.
        rewrite (Qpow10_succ (e - 1 + 1)) in Hb.
        rewrite (Qpow10_succ (e - 1)) in *.
        split; lra.
Qed.
Lemma Qpow10_Z k : (0 <= k)%Z -> inject_Z (10 ^ k) == 10 ^ k.
Proof. intros. apply (Zpower_Qpower 10 k). assumption. Qed.

Lemma pow2_le_pow10 k : (0 <= k)%Z -> (2 ^ k <= 10 ^ k)%Z.
Proof. intros. apply Z.pow_le_mono_l. lia. Qed.

Lemma fuel_up q : 1 <= q -> q < 10 ^ Z.of_nat (S (Z.to_nat (Z.log2 (Qnum q)))).
Proof.
  intros H1. destruct q as [n d]. cbn [Qnum].
  assert (0 < n)%Z as Hn.
  { unfold Qle in H1. simpl in H1. lia. }
  pose proof (Z.log2_spec n Hn) as [_ Hlog].
  pose proof (Z.log2_nonneg n) as Hnn.
  rewrite Nat2Z.inj_succ, Z2Nat.id by assumption.
  rewrite <- Qpow10_Z by lia.
  pose proof (pow2_le_pow10 (Z.succ (Z.log2 n)) ltac:(lia)).
  unfold Qlt, inject_Z. cbn [Qnum Qden].
  apply Z.lt_le_trans with (10 ^ Z.succ (Z.log2 n) * 1)%Z.
  - rewrite !Z.mul_1_r. eapply Z.lt_le_trans; eassumption.
  - apply Z.mul_le_mono_nonneg_l; [apply Z.pow_nonneg|]; lia.
Qed.

Lemma fuel_down q : 0 < q -> 1 <= q * 10 ^ Z.of_nat (S (Z.to_nat (Z.log2 (Zpos (Qden q))))).
Proof.
  intros H0. destruct q as [n d]. cbn [Qden].
  assert (0 < n)%Z as Hn.
  { unfold Qlt in H0. simpl in H0. lia. }
  pose proof (Z.log2_spec (Zpos d) ltac:(lia)) as [_ Hlog].
  pose proof (Z.log2_nonneg (Zpos d)) as Hnn.
  rewrite Nat2Z.inj_succ, Z2Nat.id by assumption.
  rewrite <- Qpow10_Z by lia.
  pose proof (pow2_le_pow10 (Z.succ (Z.log2 (Zpos d))) ltac:(lia)).
  unfold Qle, Qmult, inject_Z. cbn [Qnum Qden].
  rewrite Pos.mul_1_r, Z.mul_1_r.
  apply Z.le_trans with (1 * 10 ^ Z.succ (Z.log2 (Z.pos d)))%Z.
  - rewrite !Z.mul_1_l. apply Z.lt_le_incl. eapply Z.lt_le_trans; eassumption.
  - apply Z.mul_le_mono_nonneg_r; [apply Z.pow_nonneg|]; lia.
Qed.

Lemma sci_exp_spec q : 0 < q ->
  10 ^ sci_exp q <= q /\ q < 10 ^ (sci_exp q + 1).
Proof.
  intros H0. unfold sci_exp. destruct (Qle_bool 1 q) eqn:E.
  - apply Qle_bool_iff in E. apply exp_up_spec; [assumption | apply fuel_up; assumption].
  - assert (q < 1) by (apply Qnot_le_lt; intro C; apply Qle_bool_iff in C; congruence).
    apply exp_down_spec; [assumption | lra | apply fuel_down; assumption].
Qed.

Lemma Qpow10_mono a b : (a <= b)%Z -> 10 ^ a <= 10 ^ b.
Proof. intros. apply Qpower_le_compat_l; [assumption | discriminate]. Qed.

Lemma sci_exp_unique q e : 10 ^ e <= q -> q < 10 ^ (e + 1) -> sci_exp q = e.
Proof.
  intros Hl Hu.
  assert (0 < q) as H0 by (pose proof (Qpow10_pos e); lra).
  destruct (sci_exp_spec q H0) as [Hl' Hu'].
  destruct (Z.lt_trichotomy (sci_exp q) e) as [C | [C | C]]; [exfalso | assumption | exfalso].
  - pose proof (Qpow10_mono (sci_exp q + 1) e ltac:(lia)). lra.
  - pose proof (Qpow10_mono (e + 1) (sci_exp q) ltac:(lia)). lra.
Qed.

Lemma sci_exp_comp q q' : 0 < q -> q == q' -> sci_exp q = sci_exp q'.
Proof.
  intros H0 Heq. symmetry. destruct (sci_exp_spec q H0).
  apply sci_exp_unique; rewrite <- Heq; assumption.
Qed.

Lemma round_pos_comp q q' : 0 < q -> q == q' -> round_pos q == round_pos q'.
Proof.
  intros H0 Heq. unfold round_pos. rewrite (sci_exp_comp q q' H0 Heq).
  rewrite Heq. reflexivity.
Qed.

Lemma Qpow10_cancel a : 10 ^ a * 10 ^ (- a) == 1.
Proof. rewrite <- Qpower_plus by discriminate. replace (a + - a)%Z with 0%Z by lia. reflexivity. Qed.

(** The scaled coefficient of a positive rational has exactly [precision]
    digits before rounding, and at most one more after. *)
Lemma scaled_bounds q : 0 < q ->
  let s := (precision - 1 - sci_exp q)%Z in
  10 ^ (precision - 1) <= q * 10 ^ s /\ q * 10 ^ s < 10 ^ precision.
Proof.
  intros H0 s. destruct (sci_exp_spec q H0) as [Hl Hu].
  pose proof (Qpow10_pos s) as Hs.
  assert (10 ^ (precision - 1) == 10 ^ sci_exp q * 10 ^ s) as E1.
  { rewrite <- Qpower_plus by discriminate. subst s.
    replace (sci_exp q + (precision - 1 - sci_exp q))%Z with (precision - 1)%Z by lia. reflexivity. }
  assert (10 ^ precision == 10 ^ (sci_exp q + 1) * 10 ^ s) as E2.
  { rewrite <- Qpower_plus by discriminate. subst s.
    replace (sci_exp q + 1 + (precision - 1 - sci_exp q))%Z with precision by lia. reflexivity. }
  rewrite E1, E2. split.
  - apply Qmult_le_compat_r; lra.
  - apply Qmult_lt_compat_r; lra.
Qed.


Lemma Qpow10_add a b : 10 ^ (a + b) == 10 ^ a * 10 ^ b.
Proof. apply Qpower_plus. discriminate. Qed.

Lemma coeff_bounds q : 0 < q ->
  let s := (precision - 1 - sci_exp q)%Z in
  (10 ^ (precision - 1) <= Qfloor (q * 10 ^ s + (1 # 2)) <= 10 ^ precision)%Z.
Proof.
  intros H0 s. destruct (scaled_bounds q H0) as [Hl Hu]. fold s in Hl, Hu.
  split.
  - rewrite <- (Qfloor_Z (10 ^ (precision - 1))%Z). apply Qfloor_resp_le.
    change (inject_Z (10 ^ (precision - 1))) with (10 ^ (precision - 1)). lra.
  - apply Z.le_trans with (Qfloor (10 ^ precision + (1 # 2))).
    + apply Qfloor_resp_le. lra.
    + apply Z.leb_le. vm_compute. reflexivity.
Qed.

Lemma floor_half c : Qfloor (inject_Z c + (1 # 2)) = c.
Proof.
  unfold Qfloor, Qplus, inject_Z. cbn [Qnum Qden].
  change (Z.pos (1 * 2)) with 2%Z. rewrite Z.div_add_l by lia.
  change (1 * 1 / 2)%Z with 0%Z. lia.
Qed.

Lemma round_pos_eq q :
  round_pos q =
  inject_Z (Qfloor (q * 10 ^ (precision - 1 - sci_exp q) + (1 # 2)))
  * 10 ^ (- (precision - 1 - sci_exp q)).
Proof. reflexivity. Qed.

Lemma round_pos_range q : 0 < q ->
  10 ^ sci_exp q <= round_pos q /\ round_pos q <= 10 ^ (sci_exp q + 1).
Proof.
  intros H0. rewrite round_pos_eq.
  pose proof (coeff_bounds q H0) as [Hl Hu]. cbv zeta in Hl, Hu.
  set (s := (precision - 1 - sci_exp q)%Z) in *.
  set (c := Qfloor (q * 10 ^ s + (1 # 2))) in *.
  pose proof (Qpow10_pos (- s)) as Hs.
  assert (10 ^ sci_exp q == 10 ^ (precision - 1) * 10 ^ (- s)) as E1.
  { rewrite <- Qpow10_add. subst s. f_equiv. lia. }
  assert (10 ^ (sci_exp q + 1) == 10 ^ precision * 10 ^ (- s)) as E2.
  { rewrite <- Qpow10_add. subst s. f_equiv. lia. }
  rewrite E1, E2. split.
  - apply Qmult_le_compat_r; [|lra].
    rewrite <- Qpow10_Z by (unfold precision; lia). rewrite <- Zle_Qle. assumption.
  - apply Qmult_le_compat_r; [|lra].
    rewrite <- Qpow10_Z by (unfold precision; lia). rewrite <- Zle_Qle. assumption.
Qed.

Lemma round_pos_pos q : 0 < q -> 0 < round_pos q.
Proof.
  intros H0. destruct (round_pos_range q H0) as [Hl _].
  pose proof (Qpow10_pos (sci_exp q)). lra.
Qed.

(** Rounding a value that already has at most [precision] digits changes
    nothing. *)
Lemma round_pos_idem q : 0 < q -> round_pos (round_pos q) == round_pos q.
Proof.
  intros H0.
  pose proof (coeff_bounds q H0) as [Hl Hu]. cbv zeta in Hl, Hu.
  pose proof (round_pos_range q H0) as [Rl Ru].
  pose proof (round_pos_eq q) as Er.
  set (e := sci_exp q) in *.
  set (s := (precision - 1 - e)%Z) in *.
  set (c := Qfloor (q * 10 ^ s + (1 # 2))) in *.
  set (r := round_pos q) in *.
  assert (r == inject_Z c * 10 ^ (- s)) as Er' by (rewrite Er; reflexivity).
  clear Er.
  destruct (Z.eq_dec c (10 ^ precision)%Z) as [Hc | Hc].
  - (* the coefficient was rounded up to a power of ten *)
    assert (r == 10 ^ (e + 1)) as Hr.
    { rewrite Er', Hc, Qpow10_Z by (unfold precision; lia).
      rewrite <- Qpow10_add. subst s. f_equiv. lia. }
    assert (sci_exp r = (e + 1)%Z) as He.
    { apply sci_exp_unique; rewrite Hr; [lra|].
      apply Qpower_lt_compat_l; [lia | reflexivity]. }
    rewrite (round_pos_eq r), He.
    replace (precision - 1 - (e + 1))%Z with (s - 1)%Z by (subst s; lia).
    assert (r * 10 ^ (s - 1) == inject_Z (10 ^ (precision - 1))) as Hsc.
    { rewrite Hr, <- Qpow10_add, Qpow10_Z by (unfold precision; lia).
      subst s. f_equiv. lia. }
    rewrite Hsc, floor_half, Qpow10_Z by (unfold precision; lia).
    rewrite Hr, <- Qpow10_add. subst s. f_equiv. lia.
  - assert (r < 10 ^ (e + 1)) as Hlt.
    { rewrite Er'.
      assert (10 ^ (e + 1) == 10 ^ precision * 10 ^ (- s)) as E2.
      { rewrite <- Qpow10_add. subst s. f_equiv. lia. }
      rewrite E2. apply Qmult_lt_compat_r; [apply Qpow10_pos|].
      rewrite <- Qpow10_Z by (unfold precision; lia). rewrite <- Zlt_Qlt. lia. }
    assert (sci_exp r = e) as He by (apply sci_exp_unique; assumption).
    rewrite (round_pos_eq r), He. fold s.
    assert (r * 10 ^ s == inject_Z c) as Hsc.
    { rewrite Er', <- Qmult_assoc, (Qmult_comm (10 ^ (- s))), Qpow10_cancel. ring. }
    rewrite Hsc, floor_half. symmetry. exact Er'.
Qed.

(** *** Rounding on canonical rationals *)

Lemma finalise_zero : finalise 0%Qc = 0%Qc.
Proof. reflexivity. Qed.

Lemma finalise_pos_eq (q : Qc) : 0 < q -> finalise q = Q2Qc (round_pos q).
Proof.
  intros H. unfold finalise, Qccompare. change (this 0%Qc) with 0.
  destruct (Qcompare_spec q 0); [lra | lra | reflexivity].
Qed.

Lemma finalise_neg_eq (q : Qc) : q < 0 -> finalise q = (- Q2Qc (round_pos (- q)))%Qc.
Proof.
  intros H. unfold finalise, Qccompare. change (this 0%Qc) with 0.
  destruct (Qcompare_spec q 0); [lra | reflexivity | lra].
Qed.

Lemma Qc_cases (q : Qc) : q = 0%Qc \/ 0 < q \/ q < 0.
Proof.
  destruct (Q_dec q 0) as [[H | H] | H].
  - right. right. assumption.
  - right. left. assumption.
  - left. apply Qc_is_canon. assumption.
Qed.

Lemma this_Q2Qc (q : Q) : this (Q2Qc q) == q.
Proof. apply Qred_correct. Qed.

Lemma finalise_opp (q : Qc) : finalise (- q) = (- finalise q)%Qc.
Proof.
  destruct (Qc_cases q) as [-> | [H | H]].
  - reflexivity.
  - rewrite (finalise_pos_eq q H).
    assert (this (- q)%Qc < 0) as Hn.
    { unfold Qcopp. rewrite this_Q2Qc. lra. }
    rewrite (finalise_neg_eq _ Hn). f_equal. apply Q2Qc_eq_iff.
    apply round_pos_comp.
    + unfold Qcopp. rewrite this_Q2Qc. lra.
    + unfold Qcopp. rewrite this_Q2Qc. ring.
  - rewrite (finalise_neg_eq q H).
    assert (0 < this (- q)%Qc) as Hn.
    { unfold Qcopp. rewrite this_Q2Qc. lra. }
    rewrite (finalise_pos_eq _ Hn). rewrite Qcopp_involutive.
    apply Q2Qc_eq_iff. apply round_pos_comp; [assumption|].
    unfold Qcopp. apply this_Q2Qc.
Qed.

Lemma finalise_idem_pos (q : Qc) : 0 < q -> finalise (finalise q) = finalise q.
Proof.
  intros H. rewrite (finalise_pos_eq q H).
  pose proof (round_pos_pos q H) as Hr.
  assert (0 < this (Q2Qc (round_pos q))) as Hr' by (rewrite this_Q2Qc; assumption).
  rewrite (finalise_pos_eq _ Hr'). apply Q2Qc_eq_iff.
  rewrite (round_pos_comp _ (round_pos q) Hr' (this_Q2Qc _)).
  apply round_pos_idem. assumption.
Qed.

Lemma finalise_idem (q : Qc) : finalise (finalise q) = finalise q.
Proof.
  destruct (Qc_cases q) as [-> | [H | H]].
  - reflexivity.
  - apply finalise_idem_pos. assumption.
  - assert (0 < this (- q)%Qc) as Hp by (unfold Qcopp; rewrite this_Q2Qc; lra).
    rewrite <- (Qcopp_involutive q). generalize dependent (- q)%Qc. intros p Hp.
    rewrite (finalise_opp p), (finalise_opp (finalise p)).
    f_equal. apply finalise_idem_pos. assumption.
Qed.



End Rounding.

(** ** Arithmetic of decimals *)

Lemma plus_wf x y : wf (plus x y).
Proof. destruct x, y; simpl; try destruct (Bool.eqb _ _); simpl; auto using finalise_idem. Qed.

Lemma minus_wf x y : wf (minus x y).
Proof. destruct x, y; simpl; try destruct (Bool.eqb _ _); simpl; auto using finalise_idem. Qed.

Lemma times_wf x y : wf (times x y).
Proof. destruct x, y; simpl; try destruct (is_zero _); simpl; auto using finalise_idem. Qed.

Lemma div_wf x y : wf (div x y).
Proof.
  destruct x, y; simpl; try exact I; try reflexivity.
  destruct (is_zero q0); [destruct (is_zero q); exact I|]. simpl. apply finalise_idem.
Qed.

Lemma neg_wf x : wf x → wf (neg x).
Proof. destruct x; simpl; auto. intros H. rewrite finalise_opp, H. reflexivity. Qed.

Lemma plus_zero_l x : wf x → plus zero x = x.
Proof.
  destruct x; simpl; auto. intros H. rewrite Qcplus_0_l, H. reflexivity.
Qed.

Lemma times_one_r x : wf x → times x one = x.
Proof.
  destruct x as [| s | q]; simpl; auto.
  - intros _. destruct s; reflexivity.
  - intros H. rewrite Qcmult_1_r, H. reflexivity.
Qed.

Lemma minus_diag x : is_finite x = true → minus x x = zero.
Proof.
  destruct x; simpl; try discriminate. intros _.
  unfold Qcminus. rewrite Qcplus_opp_r. reflexivity.
Qed.



Lemma of_Z_nonzero z : z ≠ 0 → is_zero (Q2Qc (inject_Z z)) = false.
Proof.
  intros Hz. unfold is_zero. apply bool_decide_eq_false. intros H.
  change 0%Qc with (Q2Qc 0) in H. apply Q2Qc_eq_iff in H.
  unfold Qeq in H. simpl in H. lia.
Qed.

Lemma finalise_one : finalise 1%Qc = 1%Qc.
Proof. apply Qc_is_canon. vm_compute. reflexivity. Qed.

Lemma div_diag z : z ≠ 0 → div (of_Z z) (of_Z z) = one.
Proof.
  intros Hz. unfold div, of_Z. rewrite of_Z_nonzero by assumption.
  unfold Qcdiv. rewrite Qcmult_inv_r.
  - rewrite finalise_one. reflexivity.
  - intros H. pose proof (of_Z_nonzero z Hz) as Hn.
    unfold is_zero in Hn. apply bool_decide_eq_false in Hn. contradiction.
Qed.

Lemma this_Qcdiv (x y : Qc) : (this (x / y)%Qc == this x / this y)%Q.
Proof.
  unfold Qcdiv, Qcmult, Qcinv, Q2Qc. cbn [this].
  rewrite !Qred_correct. reflexivity.
Qed.

Lemma pow10_nonzero d : 10 ^ Z.of_nat d ≠ 0.
Proof. apply Z.pow_nonzero; lia. Qed.

Lemma convertToUiAmount_eq amount d :
  convertToUiAmount amount d =
  Fin (finalise (Q2Qc (inject_Z amount) / Q2Qc (inject_Z (10 ^ Z.of_nat d)))%Qc).
Proof.
  unfold convertToUiAmount, div, pow10, of_Z.
  rewrite of_Z_nonzero by apply pow10_nonzero. reflexivity.
Qed.

Lemma convertToUiAmount_wf amount d : wf (convertToUiAmount amount d).
Proof. apply div_wf. Qed.

Lemma convertToUiAmount_finite amount d : is_finite (convertToUiAmount amount d) = true.
Proof. rewrite convertToUiAmount_eq. reflexivity. Qed.

(** A raw amount that is a whole number of display units converts to
    that number. *)
Lemma convertToUiAmount_scaled n d :
  convertToUiAmount (n * 10 ^ Z.of_nat d) d = Fin (finalise (Q2Qc (inject_Z n))).
Proof.
  rewrite convertToUiAmount_eq. do 2 f_equal. apply Qc_is_canon.
  rewrite this_Qcdiv, !this_Q2Qc.
  pose proof (pow10_nonzero d) as Hd.
  rewrite inject_Z_mult. field.
  intros H. apply Hd. unfold Qeq in H. cbn [Qnum Qden inject_Z] in H. lia.
Qed.


(** ** The in-place sort *)

Lemma sort_insert_Permutation {A} (compare : A → A → Z) x l :
  sort_insert compare x l ≡ₚ x :: l.
Proof.
  induction l as [|y l IH]; simpl; [reflexivity|].
  destruct (compare x y <=? 0); [reflexivity|].
  rewrite IH. apply perm_swap.
Qed.

Lemma Array_sort_Permutation {A} (compare : A → A → Z) l :
  Array_sort compare l ≡ₚ l.
Proof.
  induction l as [|x l IH]; simpl; [reflexivity|].
  rewrite sort_insert_Permutation, IH. reflexivity.
Qed.

Lemma byBlockTime_le a b : (byBlockTime a b <=? 0) = true ↔ timeOf a ≤ timeOf b.
Proof. unfold byBlockTime, timeOf. rewrite Z.leb_le. lia. Qed.

Lemma sort_insert_HdRel x y l :
  timeOf y ≤ timeOf x →
  HdRel (λ a b, timeOf a ≤ timeOf b) y l →
  HdRel (λ a b, timeOf a ≤ timeOf b) y (sort_insert byBlockTime x l).
Proof.
  intros Hyx Hl. destruct l as [|z l]; simpl.
  - constructor. assumption.
  - destruct (byBlockTime x z <=? 0); constructor; [assumption|].
    inversion Hl; assumption.
Qed.

Lemma sort_insert_Sorted x l :
  sortedByBlockTime l → sortedByBlockTime (sort_insert byBlockTime x l).
Proof.
  unfold sortedByBlockTime. induction 1 as [|y l Hs IH Hd]; simpl.
  - repeat constructor.
  - destruct (byBlockTime x y <=? 0) eqn:E.
    + apply byBlockTime_le in E. repeat constructor; assumption.
    + assert (timeOf y ≤ timeOf x).
      { destruct (Z.le_gt_cases (timeOf x) (timeOf y)) as [C|C]; [|lia].
        apply byBlockTime_le in C. congruence. }
      constructor; [assumption|]. apply sort_insert_HdRel; assumption.
Qed.

Lemma Array_sort_Sorted l : sortedByBlockTime (Array_sort byBlockTime l).
Proof.
  induction l as [|x l IH]; simpl; [constructor|].
  apply sort_insert_Sorted. assumption.
Qed.

Lemma Array_sort_sorted_id l :
  sortedByBlockTime l → Array_sort byBlockTime l = l.
Proof.
  unfold sortedByBlockTime. induction 1 as [|x l Hs IH Hd]; simpl; [reflexivity|].
  rewrite IH. destruct Hd as [|y l Hxy]; simpl; [reflexivity|].
  apply byBlockTime_le in Hxy. rewrite Hxy. reflexivity.
Qed.

(** Stability: instructions of one block time keep their order. *)
Lemma sort_insert_stable (t : Z) x l :
  filter (λ i, timeOf i = t) (sort_insert byBlockTime x l) =
  filter (λ i, timeOf i = t) (x :: l).
Proof.
  induction l as [|y l IH]; simpl; [reflexivity|].
  destruct (byBlockTime x y <=? 0) eqn:E; [reflexivity|].
  assert (timeOf y < timeOf x).
  { destruct (Z.le_gt_cases (timeOf x) (timeOf y)) as [C|C]; [|lia].
    apply byBlockTime_le in C. congruence. }
  rewrite !filter_cons in *. rewrite IH.
  repeat case_decide; try reflexivity; lia.
Qed.

Lemma Array_sort_stable (t : Z) l :
  filter (λ i, timeOf i = t) (Array_sort byBlockTime l) = filter (λ i, timeOf i = t) l.
Proof.
  induction l as [|x l IH]; simpl; [reflexivity|].
  rewrite sort_insert_stable, !filter_cons, IH. reflexivity.
Qed.

(** C9 (as stated) fails: a list that arrives newest first, as the
    signature history does, is reordered by the call. *)
Lemma C9_input_reordered :
  let instructions :=
    [Sample.at_ "sig2" Sample.t2 (Sample.close RECLAIMABLE_RENT_LAMPORTS);
     Sample.at_ "sig1" Sample.t0 (Sample.open PAYABLE_RENT_LAMPORTS)] in
  fst (analyzeInstructions instructions Sample.whirlpoolData Sample.tokenMap Sample.priceMap)
  ≠ instructions.
Proof.
  intros instructions H.
  apply (f_equal (fmap timeOf)) in H. vm_compute in H. discriminate.
Qed.

(** C9 (amended): the call leaves the caller's list sorted in place by
    block time: the same instructions, in ascending block time, those of
    equal block time in their former order; a list that was already in
    ascending block time is left as it was. *)
Theorem C9_sorted_in_place instructions whirlpoolData tokenMap priceMap :
  let after := fst (analyzeInstructions instructions whirlpoolData tokenMap priceMap) in
  after ≡ₚ instructions ∧
  sortedByBlockTime after ∧
  (∀ t, filter (λ i, timeOf i = t) after = filter (λ i, timeOf i = t) instructions) ∧
  (sortedByBlockTime instructions → after = instructions).
Proof.
  cbn [analyzeInstructions fst]. repeat split.
  - apply Array_sort_Permutation.
  - apply Array_sort_Sorted.
  - intros t. apply Array_sort_stable.
  - apply Array_sort_sorted_id.
Qed.

(** ** The decoder *)

(** Inversion of a successful [bind]. *)
Lemma bind_Ok {A B} (m : Except A) (f : A → Except B) b :
  m ≫= f = Ok b → ∃ a, m = Ok a ∧ f a = Ok b.
Proof. destruct m as [a|e]; simpl; [eauto | discriminate]. Qed.

Lemma fmap_Ok {A B} (f : A → B) (m : Except A) b :
  f <$> m = Ok b → ∃ a, m = Ok a ∧ b = f a.
Proof. destruct m as [a|e]; simpl; [intros [= <-]; eauto | discriminate]. Qed.

Lemma defined_Ok {A} (v : option A) msg a : defined v msg = Ok a → v = Some a.
Proof. destruct v; simpl; congruence. Qed.

Lemma invariant_Ok c msg u : invariant c msg = Ok u → c = true.
Proof. destruct c; simpl; congruence. Qed.

(** Peels the binds off a computation known to return. *)
Ltac peel H :=
  repeat match type of H with
  | _ ≫= _ = Ok _ =>
      let a := fresh "v" in let Ha := fresh "Hv" in
      apply bind_Ok in H; destruct H as (a & Ha & H)
  | (let '(_, _) := ?p in _) = Ok _ => destruct p
  | mret _ = Ok _ => injection H as H
  end.
















(** The sample transaction decodes to two events of one position; the
    transfers and the memo are skipped. *)
Example decodeTransactions_sample :
  map (λ entry : string * list DecodedInstruction, (entry.1, map ix entry.2))
    (decodeTransactions SampleTx.borshDecode [SampleTx.instructions])
  = [(Sample.position1,
      [ix SampleTx.openDecoded;
       increaseLiquidity {|
         IncreaseLiquidity.whirlpool := Sample.pool;
         IncreaseLiquidity.position := Sample.position1;
         IncreaseLiquidity.liquidityIn := 100;
         IncreaseLiquidity.tokenAMint := Sample.USDC;
         IncreaseLiquidity.tokenBMint := Sample.USDT;
         IncreaseLiquidity.tokenAIn := 10000000;
         IncreaseLiquidity.tokenBIn := 0 |}])].
Proof. vm_compute. reflexivity. Qed.

(** C10: an event decoded from [openPosition] or
    [openPositionWithMetadata] carries the data's [tickLowerIndex] in its
    [tickUpperIndex] and the data's [tickUpperIndex] in its
    [tickLowerIndex]. *)
Theorem C10_tick_bounds_swapped borshDecode index instructions instruction
    programId accounts raw name data decoded :
  instructions !! index = Some instruction →
  shape instruction = PartiallyDecodedInstruction programId accounts raw →
  borshDecode raw = Some (name, data) →
  name = "openPosition" ∨ name = "openPositionWithMetadata" →
  decodeTransaction borshDecode index instructions = Ok decoded →
  ∃ e, ix decoded = openPosition e ∧
       js_get "tickLowerIndex" data = JNumber (OpenPosition.tickUpperIndex e) ∧
       js_get "tickUpperIndex" data = JNumber (OpenPosition.tickLowerIndex e).
Proof.
  intros Hl Hs Hb Hname H. unfold decodeTransaction in H.
  rewrite Hl in H. cbn [defined mbind except_bind] in H.
  apply bind_Ok in H. destruct H as (_ & _ & H).
  rewrite Hs, Hb in H. cbn [defined mbind except_bind] in H.
  apply bind_Ok in H. destruct H as (_ & _ & H).
  assert (decodeInstructionMap name =
          Some (λ accounts data name _ _, openPosition <$> decodeOpenPosition accounts data name))
    as Hmap by (destruct Hname; subst name; reflexivity).
  rewrite Hmap in H. cbn [defined mbind except_bind] in H.
  apply bind_Ok in H. destruct H as (i & Hi & H). injection H as <-.
  apply fmap_Ok in Hi. destruct Hi as (e & He & ->).
  exists e. split; [reflexivity|].
  unfold decodeOpenPosition in He. peel He. subst e. cbn.
  repeat match goal with
  | Hn : number ?v _ = Ok _ |- _ => destruct v; simpl in Hn; try discriminate; injection Hn as <-
  end.
  split; reflexivity.
Qed.

Lemma C10_tick_bounds_swapped_witness :
  decodeTransaction SampleTx.borshDecode 0 SampleTx.instructions = Ok SampleTx.openDecoded ∧
  ∃ e, ix SampleTx.openDecoded = openPosition e ∧
       js_get "tickLowerIndex" SampleTx.openData = JNumber (OpenPosition.tickUpperIndex e) ∧
       js_get "tickUpperIndex" SampleTx.openData = JNumber (OpenPosition.tickLowerIndex e).
Proof.
  assert (decodeTransaction SampleTx.borshDecode 0 SampleTx.instructions
          = Ok SampleTx.openDecoded) as H by (vm_compute; reflexivity).
  split; [exact H|].
  apply (C10_tick_bounds_swapped SampleTx.borshDecode 0 SampleTx.instructions
           SampleTx.openPositionIx WHIRLPOOL_PROGRAM_ID SampleTx.openAccounts
           "open" "openPosition" SampleTx.openData SampleTx.openDecoded).
  - reflexivity.
  - reflexivity.
  - reflexivity.
  - left. reflexivity.
  - exact H.
Defined.

(** ** The ledger *)








#[local] Arguments plus : simpl never.
#[local] Arguments minus : simpl never.
#[local] Arguments times : simpl never.
#[local] Arguments div : simpl never.
#[local] Arguments max : simpl never.
#[local] Arguments convertToUiAmount : simpl never.
#[local] Arguments withdrawnPercentage : simpl never.

(** The state after a deposit followed by a withdrawal, the only two
    events of the pass. *)
Lemma loop_deposit_withdrawal tokenMap priceMap solToken tokenA tokenB inc dec i d st :
  ix inc = increaseLiquidity i → ix dec = decreaseLiquidity d →
  loop tokenMap priceMap solToken tokenA tokenB St.init [inc; dec] = Ok st →
  ∃ priceA1 priceB1 priceA2 priceB2,
    priceMap !! priceKey (mint tokenA) (timeOf inc) = Some priceA1 ∧
    priceMap !! priceKey (mint tokenB) (timeOf inc) = Some priceB1 ∧
    priceMap !! priceKey (mint tokenA) (timeOf dec) = Some priceA2 ∧
    priceMap !! priceKey (mint tokenB) (timeOf dec) = Some priceB2 ∧
    let amountA := convertToUiAmount (IncreaseLiquidity.tokenAIn i) (decimals tokenA) in
    let amountB := convertToUiAmount (IncreaseLiquidity.tokenBIn i) (decimals tokenB) in
    let fraction :=
      withdrawnPercentage (DecreaseLiquidity.liquidityOut d) (IncreaseLiquidity.liquidityIn i) in
    St.depositedValue st = plus (times amountA priceA1) (times amountB priceB1) ∧
    St.withdrawnValue st =
      plus (times (convertToUiAmount (DecreaseLiquidity.tokenAOut d) (decimals tokenA)) priceA2)
           (times (convertToUiAmount (DecreaseLiquidity.tokenBOut d) (decimals tokenB)) priceB2) ∧
    St.rollingTokenAAmount st = minus amountA (times amountA fraction) ∧
    St.rollingTokenBAmount st = minus amountB (times amountB fraction) ∧
    St.forgoneValue st =
      plus (times (times amountA fraction) priceA2) (times (times amountB fraction) priceB2).
Proof.
  intros Hi Hd H. cbn [loop] in H.
  apply bind_Ok in H. destruct H as (st1 & H1 & H).
  apply bind_Ok in H. destruct H as (st2 & H2 & H). injection H as <-.
  unfold step in H1, H2. rewrite Hi in H1. rewrite Hd in H2.
  peel H1. peel H2. subst st1 st2.
  repeat match goal with
  | Hd : defined _ _ = Ok _ |- _ => apply defined_Ok in Hd
  end.
  do 4 eexists. repeat split; try eassumption; cbn; unfold sum; cbn [foldl];
    rewrite ?Z.add_0_l, ?plus_zero_l by auto using times_wf, plus_wf, convertToUiAmount_wf;
    reflexivity.
Qed.

(** Equality of two computed decimals. *)
Ltac dec_compute :=
  vm_compute;
  lazymatch goal with
  | |- Fin _ = Fin _ => f_equal; apply Qc_is_canon; reflexivity
  | |- _ => reflexivity
  end.

Lemma convertToUiAmount_zero d : convertToUiAmount 0 d = zero.
Proof.
  change 0 with (0 * 10 ^ Z.of_nat d). rewrite convertToUiAmount_scaled. reflexivity.
Qed.

Lemma times_zero_l x : is_finite x = true → times zero x = zero.
Proof.
  destruct x; try discriminate. intros _. unfold times, zero.
  rewrite Qcmult_0_l. reflexivity.
Qed.

Lemma analyzeLoop_Ok sorted whirlpoolData tokenMap priceMap tokenA tokenB st :
  analyzeLoop sorted whirlpoolData tokenMap priceMap = Ok (tokenA, tokenB, st) →
  ∃ solToken,
    tokenMap !! NATIVE_MINT = Some solToken ∧
    tokenMap !! tokenMintA whirlpoolData = Some tokenA ∧
    tokenMap !! tokenMintB whirlpoolData = Some tokenB ∧
    loop tokenMap priceMap solToken tokenA tokenB St.init sorted = Ok st.
Proof.
  unfold analyzeLoop. intros H. peel H. subst.
  repeat match goal with Hd : defined _ _ = Ok _ |- _ => apply defined_Ok in Hd end.
  eauto.
Qed.

(** C3 (as stated) fails: 10 USDC deposited at $1.00 are worth $10.00;
    withdrawn in full at $1.10, the forgone value is $11.00.  And when
    the liquidity is zero the fraction is 0/0: the rolling balance ends
    as NaN, not as zero. *)
Lemma C3_forgone_value_at_withdrawal_price :
  (∃ tokenA tokenB st,
     analyzeLoop (Array_sort byBlockTime [SampleScenario.full; SampleScenario.deposit])
       Sample.whirlpoolData Sample.tokenMap Sample.priceMap = Ok (tokenA, tokenB, st) ∧
     St.depositedValue st = dollars 1000 ∧
     St.forgoneValue st = dollars 1100 ∧
     St.forgoneValue st ≠ St.depositedValue st) ∧
  (∃ tokenA tokenB st,
     analyzeLoop (Array_sort byBlockTime [SampleScenario.nothing; SampleScenario.idle])
       Sample.whirlpoolData Sample.tokenMap Sample.priceMap = Ok (tokenA, tokenB, st) ∧
     St.rollingTokenAAmount st = NaN).
Proof.
  split.
  - do 3 eexists. split; [vm_compute; reflexivity|].
    split; [dec_compute|]. split; [dec_compute|].
    intros H.
    apply (f_equal (λ x, match x with Fin q => Qnum (this q) | _ => 0 end)) in H.
    vm_compute in H. discriminate.
  - do 3 eexists. split; vm_compute; reflexivity.
Qed.

(** C3 (amended): after one deposit and the withdrawal of all of its
    (non-zero) liquidity both rolling balances are zero, and the forgone
    value before the remaining-balance adjustment is the deposited amounts
    at the prices of the withdrawal; it is the deposited value when those
    are the prices of the deposit. *)
Theorem C3_full_withdrawal instructions whirlpoolData tokenMap priceMap
    inc dec i d tokenA tokenB st :
  Array_sort byBlockTime instructions = [inc; dec] →
  ix inc = increaseLiquidity i →
  ix dec = decreaseLiquidity d →
  IncreaseLiquidity.liquidityIn i ≠ 0 →
  DecreaseLiquidity.liquidityOut d = IncreaseLiquidity.liquidityIn i →
  analyzeLoop (Array_sort byBlockTime instructions) whirlpoolData tokenMap priceMap
  = Ok (tokenA, tokenB, st) →
  St.rollingTokenAAmount st = zero ∧
  St.rollingTokenBAmount st = zero ∧
  ∃ priceA priceB,
    priceMap !! priceKey (mint tokenA) (timeOf dec) = Some priceA ∧
    priceMap !! priceKey (mint tokenB) (timeOf dec) = Some priceB ∧
    St.forgoneValue st =
      plus (times (convertToUiAmount (IncreaseLiquidity.tokenAIn i) (decimals tokenA)) priceA)
           (times (convertToUiAmount (IncreaseLiquidity.tokenBIn i) (decimals tokenB)) priceB) ∧
    (priceMap !! priceKey (mint tokenA) (timeOf inc) = Some priceA →
     priceMap !! priceKey (mint tokenB) (timeOf inc) = Some priceB →
     St.forgoneValue st = St.depositedValue st).
Proof.
  intros Hsorted Hi Hd Hnz Hall H. rewrite Hsorted in H.
  apply analyzeLoop_Ok in H. destruct H as (solToken & _ & _ & _ & H).
  destruct (loop_deposit_withdrawal _ _ _ _ _ _ _ _ _ _ Hi Hd H)
    as (pA1 & pB1 & pA2 & pB2 & HA1 & HB1 & HA2 & HB2 & Hdep & _ & HrA & HrB & Hforgone).
  cbv zeta in *. unfold withdrawnPercentage in *.
  rewrite Hall, div_diag in * by assumption.
  rewrite !times_one_r in * by apply convertToUiAmount_wf.
  rewrite minus_diag in HrA, HrB by apply convertToUiAmount_finite.
  repeat split; try assumption.
  exists pA2, pB2. repeat split; try assumption.
  intros HA HB. rewrite Hforgone, Hdep. congruence.
Qed.

Lemma C3_full_withdrawal_witness :
  ∃ tokenA tokenB st,
    analyzeLoop (Array_sort byBlockTime [SampleScenario.full; SampleScenario.deposit])
      Sample.whirlpoolData Sample.tokenMap Sample.priceMap = Ok (tokenA, tokenB, st) ∧
    St.rollingTokenAAmount st = zero ∧ St.rollingTokenBAmount st = zero.
Proof.
  destruct (analyzeLoop (Array_sort byBlockTime [SampleScenario.full; SampleScenario.deposit])
              Sample.whirlpoolData Sample.tokenMap Sample.priceMap)
    as [[[tokenA tokenB] st]|] eqn:E; [|vm_compute in E; discriminate].
  exists tokenA, tokenB, st. split; [reflexivity|].
  destruct (C3_full_withdrawal [SampleScenario.full; SampleScenario.deposit]
              Sample.whirlpoolData Sample.tokenMap Sample.priceMap
              SampleScenario.deposit SampleScenario.full
              {| IncreaseLiquidity.whirlpool := Sample.pool;
                 IncreaseLiquidity.position := Sample.position1;
                 IncreaseLiquidity.liquidityIn := 100;
                 IncreaseLiquidity.tokenAMint := Sample.USDC;
                 IncreaseLiquidity.tokenBMint := Sample.USDT;
                 IncreaseLiquidity.tokenAIn := 10000000;
                 IncreaseLiquidity.tokenBIn := 0 |}
              {| DecreaseLiquidity.whirlpool := Sample.pool;
                 DecreaseLiquidity.position := Sample.position1;
                 DecreaseLiquidity.liquidityOut := 100;
                 DecreaseLiquidity.tokenAMint := Sample.USDC;
                 DecreaseLiquidity.tokenBMint := Sample.USDT;
                 DecreaseLiquidity.tokenAOut := 10000000;
                 DecreaseLiquidity.tokenBOut := 0 |}
              tokenA tokenB st) as (HA & HB & _).
  - vm_compute. reflexivity.
  - reflexivity.
  - reflexivity.
  - cbn. lia.
  - reflexivity.
  - exact E.
  - split; assumption.
Defined.

(** The totals [analyzeInstructions] returns are the sums of the state
    its loop ends in; only the forgone value is adjusted, by the rolling
    balances at current prices. *)
Lemma analyzeInstructions_Ok instructions whirlpoolData tokenMap priceMap totals :
  snd (analyzeInstructions instructions whirlpoolData tokenMap priceMap) = Ok totals →
  ∃ tokenA tokenB st currentA currentB,
    analyzeLoop (Array_sort byBlockTime instructions) whirlpoolData tokenMap priceMap
    = Ok (tokenA, tokenB, st) ∧
    priceMap !! mint tokenA = Some currentA ∧
    priceMap !! mint tokenB = Some currentB ∧
    depositedValue totals = St.depositedValue st ∧
    withdrawnValue totals = St.withdrawnValue st ∧
    forgoneValue totals =
      plus (St.forgoneValue st)
           (plus (times (St.rollingTokenAAmount st) currentA)
                 (times (St.rollingTokenBAmount st) currentB)) ∧
    paidRent totals = St.paidRent st.
Proof.
  unfold analyzeInstructions. cbn [snd]. intros H.
  apply bind_Ok in H. destruct H as ([[tokenA tokenB] st] & Hloop & H).
  peel H. subst totals.
  repeat match goal with Hd : defined _ _ = Ok _ |- _ => apply defined_Ok in Hd end.
  do 5 eexists. repeat split; try eassumption.
  cbn [forgoneValue]. unfold sum. cbn [foldl].
  rewrite plus_zero_l by apply times_wf. reflexivity.
Qed.

(** C4: the scenario of the specification, for tokens of any number of
    decimals and any finite price of the token that is not deposited: the
    loop ends with a deposited value of 10.00, a withdrawn value of 4.40,
    a forgone value (all of it from the one withdrawal) of 4.40 and 6
    tokens A left in the rolling balance; the deposited and the withdrawn
    value are the ones the pass returns. *)
Theorem C4_scenario instructions whirlpoolData tokenMap priceMap
    inc dec i d tokenA tokenB st priceB1 priceB2 :
  Array_sort byBlockTime instructions = [inc; dec] →
  ix inc = increaseLiquidity i →
  IncreaseLiquidity.liquidityIn i = 100 →
  IncreaseLiquidity.tokenAIn i = 10 * 10 ^ Z.of_nat (decimals tokenA) →
  IncreaseLiquidity.tokenBIn i = 0 →
  ix dec = decreaseLiquidity d →
  DecreaseLiquidity.liquidityOut d = 40 →
  DecreaseLiquidity.tokenAOut d = 4 * 10 ^ Z.of_nat (decimals tokenA) →
  DecreaseLiquidity.tokenBOut d = 0 →
  priceMap !! priceKey (mint tokenA) (timeOf inc) = Some (dollars 100) →
  priceMap !! priceKey (mint tokenA) (timeOf dec) = Some (dollars 110) →
  priceMap !! priceKey (mint tokenB) (timeOf inc) = Some priceB1 →
  priceMap !! priceKey (mint tokenB) (timeOf dec) = Some priceB2 →
  is_finite priceB1 = true →
  is_finite priceB2 = true →
  analyzeLoop (Array_sort byBlockTime instructions) whirlpoolData tokenMap priceMap
  = Ok (tokenA, tokenB, st) →
  St.depositedValue st = dollars 1000 ∧
  St.withdrawnValue st = dollars 440 ∧
  St.forgoneValue st = dollars 440 ∧
  St.rollingTokenAAmount st = of_Z 6 ∧
  ∀ totals,
    snd (analyzeInstructions instructions whirlpoolData tokenMap priceMap) = Ok totals →
    depositedValue totals = dollars 1000 ∧ withdrawnValue totals = dollars 440.
Proof.
  intros Hsorted Hi Hliq HAin HBin Hd Hout HAout HBout HpA1 HpA2 HpB1 HpB2 Hf1 Hf2 H.
  assert (∀ totals,
            snd (analyzeInstructions instructions whirlpoolData tokenMap priceMap)
            = Ok totals →
            depositedValue totals = St.depositedValue st ∧
            withdrawnValue totals = St.withdrawnValue st) as Htotals.
  { intros totals Ht. apply analyzeInstructions_Ok in Ht.
    destruct Ht as (tA & tB & st' & cA & cB & Hloop & _ & _ & Hdep & Hwd & _).
    rewrite H in Hloop. injection Hloop as _ _ <-. auto. }
  rewrite Hsorted in H.
  apply analyzeLoop_Ok in H. destruct H as (solToken & _ & _ & _ & H).
  destruct (loop_deposit_withdrawal _ _ _ _ _ _ _ _ _ _ Hi Hd H)
    as (pA1 & pB1 & pA2 & pB2 & HA1 & HB1 & HA2 & HB2 & Hdep & Hwd & HrA & _ & Hforgone).
  cbv zeta in *.
  assert (pA1 = dollars 100) by congruence. assert (pA2 = dollars 110) by congruence.
  assert (pB1 = priceB1) by congruence. assert (pB2 = priceB2) by congruence. subst.
  rewrite Hliq, HAin, HBin, ?Hout, ?HAout, ?HBout in *.
  rewrite !convertToUiAmount_scaled, !convertToUiAmount_zero in *.
  rewrite ?(times_zero_l (withdrawnPercentage 40 100)) in * by reflexivity.
  rewrite !times_zero_l in * by assumption.
  assert (St.depositedValue st = dollars 1000) as Edep by (rewrite Hdep; dec_compute).
  assert (St.withdrawnValue st = dollars 440) as Ewd by (rewrite Hwd; dec_compute).
  repeat split; try assumption.
  - rewrite Hforgone. dec_compute.
  - rewrite HrA. dec_compute.
  - rewrite <- Edep. apply Htotals. assumption.
  - rewrite <- Ewd. apply Htotals. assumption.
Qed.

Lemma C4_scenario_witness :
  ∃ tokenA tokenB st,
    analyzeLoop (Array_sort byBlockTime SampleScenario.instructions)
      Sample.whirlpoolData Sample.tokenMap Sample.priceMap = Ok (tokenA, tokenB, st) ∧
    St.depositedValue st = dollars 1000 ∧
    St.withdrawnValue st = dollars 440 ∧
    St.forgoneValue st = dollars 440 ∧
    St.rollingTokenAAmount st = of_Z 6 ∧
    ∀ totals,
      snd (analyzeInstructions SampleScenario.instructions Sample.whirlpoolData
             Sample.tokenMap Sample.priceMap) = Ok totals →
      depositedValue totals = dollars 1000 ∧ withdrawnValue totals = dollars 440.
Proof.
  destruct (analyzeLoop (Array_sort byBlockTime SampleScenario.instructions)
              Sample.whirlpoolData Sample.tokenMap Sample.priceMap)
    as [[[tokenA tokenB] st]|] eqn:E; [|vm_compute in E; discriminate].
  exists tokenA, tokenB, st. split; [reflexivity|].
  pose proof E as E'. apply analyzeLoop_Ok in E'.
  destruct E' as (solToken & _ & HA & HB & _).
  vm_compute in HA. injection HA as <-. vm_compute in HB. injection HB as <-.
  apply (C4_scenario SampleScenario.instructions
           Sample.whirlpoolData Sample.tokenMap Sample.priceMap
           SampleScenario.deposit SampleScenario.withdrawal
           {| IncreaseLiquidity.whirlpool := Sample.pool;
              IncreaseLiquidity.position := Sample.position1;
              IncreaseLiquidity.liquidityIn := 100;
              IncreaseLiquidity.tokenAMint := Sample.USDC;
              IncreaseLiquidity.tokenBMint := Sample.USDT;
              IncreaseLiquidity.tokenAIn := 10000000;
              IncreaseLiquidity.tokenBIn := 0 |}
           {| DecreaseLiquidity.whirlpool := Sample.pool;
              DecreaseLiquidity.position := Sample.position1;
              DecreaseLiquidity.liquidityOut := 40;
              DecreaseLiquidity.tokenAMint := Sample.USDC;
              DecreaseLiquidity.tokenBMint := Sample.USDT;
              DecreaseLiquidity.tokenAOut := 4000000;
              DecreaseLiquidity.tokenBOut := 0 |}
           {| mint := Sample.USDC; decimals := 6 |} {| mint := Sample.USDT; decimals := 6 |}
           st (dollars 100) (dollars 100)).
  - vm_compute. reflexivity.
  - reflexivity.
  - reflexivity.
  - reflexivity.
  - reflexivity.
  - reflexivity.
  - reflexivity.
  - reflexivity.
  - reflexivity.
  - vm_compute. reflexivity.
  - vm_compute. reflexivity.
  - vm_compute. reflexivity.
  - vm_compute. reflexivity.
  - reflexivity.
  - reflexivity.
  - exact E.
Defined.





(** ** The summary *)

(** A warning reaches the terminal in debug mode only, and not when
    logging is muted. *)
Lemma written_warn args calls message :
  (Logger.stderr, message) ∈ Logger.written args calls ↔
  Logger.debug args = true ∧ Logger.quiet args = false ∧ Logger.call_warn message ∈ calls.
Proof.
  unfold Logger.written. rewrite list_elem_of_bind. split.
  - intros (c & Hw & Hc). destruct c as [m|m]; cbn in Hw;
      unfold Logger.write_debug, Logger.write_warn, Logger.log in Hw;
      destruct (Logger.debug args), (Logger.quiet args);
      try (apply not_elem_of_nil in Hw; contradiction);
      apply list_elem_of_singleton in Hw; try discriminate.
    injection Hw as ->. auto.
  - intros (Hd & Hq & Hc). exists (Logger.call_warn message). split; [|assumption].
    cbn. unfold Logger.write_warn, Logger.log. rewrite Hd, Hq. left.
Qed.

(** Under the flags that yargs sets when none is given, nothing that goes
    through [debug] or [warn] is written. *)
Lemma written_defaults calls : Logger.written SampleSdk.defaults calls = [].
Proof.
  induction calls as [|[message|message] calls IH]; [reflexivity| |]; exact IH.
Qed.

Section SummaryProperties.

Variable Position : Type.
Variable getWhirlpoolData : Position → WhirlpoolData.
Variable decreaseLiquidityQuote : Position → Except (Z * Z).
Variable collectFeesQuote : Position → Except (Z * Z).
Variable collectRewardsQuote : Position → Except (list (option Z)).

Local Abbreviation analyzePosition_ :=
  (analyzePosition Position getWhirlpoolData decreaseLiquidityQuote collectFeesQuote
     collectRewardsQuote).
Local Abbreviation analyzeOne_ :=
  (analyzeOne Position getWhirlpoolData decreaseLiquidityQuote collectFeesQuote
     collectRewardsQuote).
Local Abbreviation analyzePositions_ :=
  (analyzePositions Position getWhirlpoolData decreaseLiquidityQuote collectFeesQuote
     collectRewardsQuote).
Local Abbreviation summarize_ :=
  (summarize Position getWhirlpoolData decreaseLiquidityQuote collectFeesQuote
     collectRewardsQuote).

(** How a successful analysis came about. *)
Lemma analyzePosition_Ok instructions positionMap poolMap tokenMap priceMap summary :
  snd (analyzePosition_ instructions positionMap poolMap tokenMap priceMap) = Ok summary →
  ∃ o openInstruction whirlpool totals,
    filter (λ i, is_openPosition i = true) instructions = [o] ∧
    ix o = openPosition openInstruction ∧
    (length (filter (λ i, is_closePosition i = true) instructions) ≤ 1)%nat ∧
    poolMap !! OpenPosition.whirlpool openInstruction = Some whirlpool ∧
    snd (analyzeInstructions instructions whirlpool tokenMap priceMap) = Ok totals ∧
    ∃ closeInstruction,
      summarize_ openInstruction (timeOf o) closeInstruction
        (positionMap !! OpenPosition.position openInstruction)
        whirlpool tokenMap priceMap totals = Ok summary.
Proof.
  unfold analyzePosition. intros H.
  destruct (filter (λ i, is_openPosition i = true) instructions)
    as [|[[openInstruction| | | | |] g] [|]] eqn:Ho; try discriminate H.
  cbn [length Nat.eqb negb] in H.
  destruct (length (filter (λ i, is_closePosition i = true) instructions) <=? 1)%nat eqn:Hc;
    [|discriminate H].
  cbn [negb] in H. apply Nat.leb_le in Hc.
  destruct (poolMap !! OpenPosition.whirlpool openInstruction) as [whirlpool|] eqn:Hp;
    [|discriminate H].
  destruct (analyzeInstructions instructions whirlpool tokenMap priceMap)
    as [sorted result] eqn:Ha.
  cbn [snd] in H. apply bind_Ok in H. destruct H as (totals & -> & H).
  exists {| ix := openPosition openInstruction; gathered := g |}, openInstruction,
         whirlpool, totals.
  repeat split; eauto. rewrite Ha. reflexivity.
Qed.

(** C2: the derived fields of a summary are the formulas of the
    specification over its ledger totals and balances, every operation a
    decimal operation. *)
Theorem C2_profitability_formulas instructions positionMap poolMap tokenMap priceMap summary :
  snd (analyzePosition_ instructions positionMap poolMap tokenMap priceMap) = Ok summary →
  let totals := analyzedInstructions summary in
  let balance := positionBalance summary in
  let gains :=
    plus (plus (plus (plus (plus (plus
      (withdrawnValue totals) (currentValue balance)) (collectedFeesValue totals))
      (collectedRewardsValue totals)) (collectibleFeesValue balance))
      (collectibleRewardsValue balance)) (reclaimableRent balance) in
  let losses := plus (plus (depositedValue totals) (transactionCost totals)) (paidRent totals) in
  profit summary = minus gains losses ∧
  profitRatio summary = div (profit summary) (positionSize totals) ∧
  forgoneProfit summary = minus (forgoneValue totals) (depositedValue totals) ∧
  forgoneProfitRatio summary = div (forgoneProfit summary) (positionSize totals) ∧
  opportunityCost summary = minus (forgoneProfit summary) (profit summary) ∧
  opportunityCostRatio summary = div (neg (opportunityCost summary)) (positionSize totals).
Proof.
  intros H. apply analyzePosition_Ok in H.
  destruct H as (o & openInstruction & whirlpool & totals & _ & _ & _ & _ & _ & close & H).
  unfold summarize in H. peel H. subst summary. cbn.
  repeat split; reflexivity.
Qed.

(** *** The batch *)









End SummaryProperties.


Lemma C2_profitability_formulas_witness :
  ∃ summary,
    snd (SampleSdk.analyzePosition SampleLife.instructions SampleSdk.positionMap
           Sample.poolMap Sample.tokenMap Sample.priceMap) = Ok summary ∧
    profit summary =
      minus (plus (plus (plus (plus (plus (plus
               (withdrawnValue (analyzedInstructions summary))
               (currentValue (positionBalance summary)))
               (collectedFeesValue (analyzedInstructions summary)))
               (collectedRewardsValue (analyzedInstructions summary)))
               (collectibleFeesValue (positionBalance summary)))
               (collectibleRewardsValue (positionBalance summary)))
               (reclaimableRent (positionBalance summary)))
            (plus (plus (depositedValue (analyzedInstructions summary))
                        (transactionCost (analyzedInstructions summary)))
                  (paidRent (analyzedInstructions summary))) ∧
    profitRatio summary = div (profit summary) (positionSize (analyzedInstructions summary)) ∧
    depositedValue (analyzedInstructions summary) = dollars 1000 ∧
    withdrawnValue (analyzedInstructions summary) = dollars 1100 ∧
    transactionCost (analyzedInstructions summary) = Fin (Q2Qc (15 # 10000)) ∧
    profit summary = Fin (Q2Qc (9985 # 10000)).
Proof.
  destruct (snd (SampleSdk.analyzePosition SampleLife.instructions SampleSdk.positionMap
                   Sample.poolMap Sample.tokenMap Sample.priceMap)) as [summary|] eqn:E;
    [|vm_compute in E; discriminate].
  exists summary. split; [reflexivity|].
  destruct (C2_profitability_formulas SampleSdk.Position SampleSdk.getWhirlpoolData
              SampleSdk.decreaseLiquidityQuote SampleSdk.collectFeesQuote
              SampleSdk.collectRewardsQuote SampleLife.instructions SampleSdk.positionMap
              Sample.poolMap Sample.tokenMap Sample.priceMap summary E)
    as (Hprofit & Hratio & _).
  split; [exact Hprofit|]. split; [exact Hratio|].
  vm_compute in E. injection E as <-.
  repeat split; dec_compute.
Defined.



